(** * Sampling-based outlier detection (pyod/models/sampling.py)

    A shallow embedding of the [Sampling] detector: its constructor, [fit]
    and [decision_function], written as state-passing code over the detector
    object, the store of random generators it may share with other objects,
    and the sequence of calls it makes to its collaborators (numpy's
    [RandomState.choice], scikit-learn's [DistanceMetric], the detector base
    class). *)

From Stdlib Require Import ZArith List String Bool Lia SpecFloat.
From stdpp Require Import base option list relations gmap strings.

Local Open Scope string_scope.
Local Open Scope list_scope.
Local Open Scope Z_scope.

(** ** Python values that the detector handles *)

(** Exceptions, one constructor per raise site or raising collaborator. *)
Inductive exn :=
| ValueError_subset_size_int (subset_size : Z) (n_samples : nat)
    (* fit: "subset_size=%r must be between 0 and n_samples=%r." *)
| ValueError_subset_size_float
    (* fit: "subset_size=%r must be between 0.0 and 1.0" *)
| ValueError_zero_size_reduction
    (* np.min over an axis of length 0 *)
| ValueError_dimension
    (* DistanceMetric.pairwise: X and Y differ in their second dimension *)
| NotFittedError
    (* sklearn check_is_fitted *)
| OverflowError
    (* int(inf), or an int too large for a float *)
| ValueError_nan
    (* int(nan) *)
| AttributeError
    (* attribute access on None *)
| TypeError
| IndexError
| LibraryError (who : string).
    (* any other rejection by a collaborator *)

(** The error classes of the specification. [InvalidParameter] is what the
    two range checks of [fit] raise. *)
Definition InvalidParameter (e : exn) : Prop :=
  match e with
  | ValueError_subset_size_int _ _ | ValueError_subset_size_float => True
  | _ => False
  end.

Definition NotFitted (e : exn) : Prop := e = NotFittedError.

(** *** Floats: IEEE 754 binary64 *)

Definition prec : Z := 53.
Definition emax : Z := 1024.
Definition float := spec_float.

Definition float_zero : float := S754_zero false.
Definition float_one : float := S754_finite false 4503599627370496 (-52).
Definition float_lt : float -> float -> bool := SFltb.
Definition float_le : float -> float -> bool := SFleb.

(** [float(n)] for a Python int: correctly rounded, [OverflowError] when the
    int is out of range. *)
Definition float_of_int (n : Z) : exn + float :=
  match binary_normalize prec emax n 0 false with
  | S754_infinity _ => inl OverflowError
  | x => inr x
  end.

(** [x * n] for a float [x] and an int [n]: the int is converted first. *)
Definition float_mul_int (x : float) (n : Z) : exn + float :=
  match float_of_int n with
  | inl e => inl e
  | inr y => inr (SFmul prec emax x y)
  end.

(** [int(x)]: truncation toward zero. *)
Definition int_of_float (x : float) : exn + Z :=
  match x with
  | S754_zero _ => inr 0
  | S754_finite s m e => inr (cond_Zopp s (Z.shiftl (Zpos m) e))
  | S754_infinity _ => inl OverflowError
  | S754_nan => inl ValueError_nan
  end.

(** The floor of a float, as a mathematical integer (for statements). *)
Definition float_floor (x : float) : option Z :=
  match x with
  | S754_zero _ => Some 0
  | S754_finite s m e => Some (Z.shiftl (cond_Zopp s (Zpos m)) e)
  | _ => None
  end.


(** *** [subset_size]: an int or a float *)
Inductive size_arg :=
| SInt (k : Z)
| SFloat (f : float).

(** *** [metric_params]: a dict or a sequence, and star-unpacking *)
Section PyVal.
Variable Obj : Type.

Inductive pyval :=
| PStr (s : string)
| PInt (z : Z)
| PObj (o : Obj).

Inductive params :=
| PDict (items : list (string * pyval))
| PSeq (elems : list pyval).

(** [*p] in a call: the elements of a sequence; the keys of a dict. *)
Definition star (p : params) : list pyval :=
  match p with
  | PDict items => map (fun kv => PStr (fst kv)) items
  | PSeq elems => elems
  end.

(** [**p] in a call, what forwarding a dict of keyword arguments takes. *)
Definition double_star (p : params) : option (list (string * pyval)) :=
  match p with
  | PDict items => Some items
  | PSeq _ => None
  end.
End PyVal.

Arguments PStr {Obj} s.
Arguments PInt {Obj} z.
Arguments PObj {Obj} o.
Arguments PDict {Obj} items.
Arguments PSeq {Obj} elems.
Arguments star {Obj} p.
Arguments double_star {Obj} p.

(** *** Two-dimensional arrays *)
Record ndarray (A : Type) := Ndarray {
  n_features : nat;           (* shape[1] *)
  rows : list (list A)        (* shape[0] = length rows *)
}.
Arguments Ndarray {A} n_features rows.
Arguments n_features {A} n.
Arguments rows {A} n.

Definition n_samples {A} (X : ndarray A) : nat := length (rows X).

(** sklearn's [check_array] with its defaults: a rectangular 2-D array with
    at least one sample and one feature, returned as it is. *)
Definition check_array {A} (X : ndarray A) : exn + ndarray A :=
  if forallb (fun r => Nat.eqb (length r) (n_features X)) (rows X)
     && Nat.leb 1 (n_samples X) && Nat.leb 1 (n_features X)
  then inr X
  else inl (LibraryError "check_array").

(** [X[idx, :]] *)
Definition take_rows {A} (X : ndarray A) (idx : list nat) : exn + ndarray A :=
  match mapM (fun i => rows X !! i) idx with
  | Some rs => inr (Ndarray (n_features X) rs)
  | None => inl IndexError
  end.

(** Random generators live in a store and are held by reference. *)
Definition loc := nat.

(** [np.random.mtrand._rand], the generator of the [np.random] module. *)
Definition np_random : loc := 0%nat.

Inductive random_state_arg :=
| RsNone
| RsInt (seed : Z)
| RsInstance (l : loc).

(** ** The detector *)

(** The code the detector calls and does not own: numpy, scikit-learn and
    the detector base class. *)
Class Collaborators := {
  (** Feature values and distances. The detector never inspects a feature
      value; distances are compared, by [np.min]. *)
  Feature : Type;
  Num : Type;
  zero : Num;
  leb : Num -> Num -> bool;
  (** scikit-learn's [DistanceMetric]: [get_metric] resolves a metric name
      (or callable) and extra positional arguments to a metric object;
      [dfun m] is the distance that object computes between two rows. *)
  Metric : Type;
  Obj : Type;
  Dist : Type;
  get_metric : Metric -> list (pyval Obj) -> exn + Dist;
  dfun : Dist -> list Feature -> list Feature -> Num;
  (** numpy's [RandomState]: [RandomState_new seed] is [RandomState(seed)];
      [choice g n size] is [g.choice(n, size=size, replace=False)], which
      returns the draw (or raises) and leaves the generator in a new state. *)
  RandomState : Type;
  RandomState_new : Z -> RandomState;
  choice : RandomState -> nat -> Z -> (exn + list nat) * RandomState;
  (** The detector base class ([BaseDetector]), which owns the
      contamination ratio, the threshold, the labels and some bookkeeping
      of its own. *)
  Contam : Type;
  Thr : Type;
  Base : Type;
  Target : Type;
  base_init : Contam -> Base;
  base_set_n_classes : option Target -> Base -> Base;
  base_process : Contam -> list Num -> Base -> Base;
  threshold_of : Contam -> list Num -> Thr;
  labels_of : Contam -> list Num -> list bool
}.

Section Sampling.
Context `{Collaborators}.

(** The attributes of a [Sampling] object. [threshold_] and [labels_] are
    absent ([None] here) until the base class sets them; [dist], [subset] and
    [decision_scores_] exist from construction on and hold Python's [None]
    until [fit] assigns them. *)
Record Sampling := mkSampling {
  contamination : Contam;
  base : Base;
  subset_size : size_arg;
  metric : Metric;
  metric_params : option (params Obj);
  random_state : loc;
  dist : option Dist;
  subset : option (ndarray Feature);
  decision_scores_ : option (list Num);
  threshold_ : option Thr;
  labels_ : option (list bool)
}.

Definition with_base (b : Base) (d : Sampling) : Sampling :=
  mkSampling (contamination d) b (subset_size d) (metric d) (metric_params d)
    (random_state d) (dist d) (subset d) (decision_scores_ d) (threshold_ d)
    (labels_ d).

Definition with_subset_size (k : size_arg) (d : Sampling) : Sampling :=
  mkSampling (contamination d) (base d) k (metric d) (metric_params d)
    (random_state d) (dist d) (subset d) (decision_scores_ d) (threshold_ d)
    (labels_ d).

Definition with_dist (m : option Dist) (d : Sampling) : Sampling :=
  mkSampling (contamination d) (base d) (subset_size d) (metric d)
    (metric_params d) (random_state d) m (subset d) (decision_scores_ d)
    (threshold_ d) (labels_ d).

Definition with_subset (s : option (ndarray Feature)) (d : Sampling) : Sampling :=
  mkSampling (contamination d) (base d) (subset_size d) (metric d)
    (metric_params d) (random_state d) (dist d) s (decision_scores_ d)
    (threshold_ d) (labels_ d).

Definition with_decision_scores (v : option (list Num)) (d : Sampling) : Sampling :=
  mkSampling (contamination d) (base d) (subset_size d) (metric d)
    (metric_params d) (random_state d) (dist d) (subset d) v (threshold_ d)
    (labels_ d).

Definition with_threshold_labels (t : option Thr) (l : option (list bool))
    (d : Sampling) : Sampling :=
  mkSampling (contamination d) (base d) (subset_size d) (metric d)
    (metric_params d) (random_state d) (dist d) (subset d)
    (decision_scores_ d) t l.

(** Calls to collaborators, in the order they are made. *)
Inductive event :=
| Call_choice (g : loc) (n : nat) (size : Z) (res : exn + list nat)
| Call_get_metric (name : Metric) (args : list (pyval Obj)) (res : exn + Dist)
| Call_pairwise (m : Dist) (X Y : ndarray Feature)
| Call_process_decision_scores (scores : list Num).

Definition is_sampling (e : event) : bool :=
  match e with Call_choice _ _ _ _ => true | _ => false end.
Definition is_resolution (e : event) : bool :=
  match e with Call_get_metric _ _ _ => true | _ => false end.

(** What a method call acts on: the object, the generators, the calls made
    so far. *)
Record state := mkState {
  self : Sampling;
  rngs : gmap loc RandomState;
  calls : list event
}.

(** A method body: it returns or raises, and leaves a state behind either
    way. *)
Definition M (T : Type) : Type := state -> (exn + T) * state.

Definition ret {T} (x : T) : M T := fun s => (inr x, s).
Definition raise {T} (e : exn) : M T := fun s => (inl e, s).
Definition bind {T U} (m : M T) (k : T -> M U) : M U :=
  fun s => match m s with
           | (inr x, s') => k x s'
           | (inl e, s') => (inl e, s')
           end.
Definition lift {T} (r : exn + T) : M T :=
  match r with inl e => raise e | inr x => ret x end.
Definition get {T} (f : Sampling -> T) : M T := fun s => (inr (f (self s)), s).
Definition assign (f : Sampling -> Sampling) : M unit :=
  fun s => (inr tt, mkState (f (self s)) (rngs s) (calls s)).
Definition emit (e : event) : M unit :=
  fun s => (inr tt, mkState (self s) (rngs s) (calls s ++ [e])).

Notation "'let!' x ':=' m 'in' k" := (bind m (fun x => k))
  (at level 10, x name, m at level 100, k at level 200).
Notation "m ';;' k" := (bind m (fun _ => k))
  (at level 100, k at level 200, right associativity).

(** *** Collaborator calls *)

(** [self.random_state.choice(n, size=size, replace=False)] *)
Definition random_state_choice (n : nat) (size : Z) : M (list nat) :=
  fun s =>
    let g := random_state (self s) in
    match rngs s !! g with
    | None => (inl AttributeError, s)
    | Some r =>
        let '(res, r') := choice r n size in
        (res, mkState (self s) (<[g := r']> (rngs s))
                (calls s ++ [Call_choice g n size res]))
    end.

(** [DistanceMetric.get_metric(name, *args)] *)
Definition call_get_metric (name : Metric) (args : list (pyval Obj)) : M Dist :=
  emit (Call_get_metric name args (get_metric name args)) ;;
  lift (get_metric name args).

(** [m.pairwise(X, Y)]: the matrix of [dfun m x y], [x] a row of [X] and
    [y] a row of [Y]. *)
Definition pairwise (m : Dist) (X Y : ndarray Feature) : exn + list (list Num) :=
  if Nat.eqb (n_features X) (n_features Y)
  then inr (map (fun x => map (dfun m x) (rows Y)) (rows X))
  else inl ValueError_dimension.

(** [self.dist.pairwise(X, self.subset)] *)
Definition self_dist_pairwise (X : ndarray Feature) : M (list (list Num)) :=
  let! d := get dist in
  let! ref := get subset in
  match d, ref with
  | None, _ => raise AttributeError
  | Some m, None => raise TypeError
  | Some m, Some Y => emit (Call_pairwise m X Y) ;; lift (pairwise m X Y)
  end.

(** [np.min(row)] and [np.min(pair_dist, axis=1)]. Behind [check_array] the
    matrix has at least one row, so it is empty along axis 1 exactly when
    its rows are. *)
Definition min_row (r : list Num) : option Num :=
  match r with
  | [] => None
  | x :: r' => Some (fold_left (fun a b => if leb b a then b else a) r' x)
  end.

Definition np_min_axis1 (m : list (list Num)) : exn + list Num :=
  match mapM min_row m with
  | Some v => inr v
  | None => inl ValueError_zero_size_reduction
  end.

(** Modelled from the spec: [BaseDetector._set_n_classes], of which the
    specification only says that the base component keeps its own
    bookkeeping; it touches nothing but [base]. *)
Definition _set_n_classes (y : option Target) : M unit :=
  assign (fun d => with_base (base_set_n_classes y (base d)) d).

(** Modelled from the spec: [BaseDetector._process_decision_scores], which
    derives the threshold and the labels from the training scores and the
    contamination ratio. *)
Definition _process_decision_scores : M unit :=
  let! c := get contamination in
  let! v := get decision_scores_ in
  match v with
  | None => raise TypeError
  | Some scores =>
      emit (Call_process_decision_scores scores) ;;
      assign (fun d => with_threshold_labels (Some (threshold_of c scores))
                         (Some (labels_of c scores))
                         (with_base (base_process c scores (base d)) d))
  end.

(** sklearn's [check_is_fitted(self, attributes)]: every named attribute
    exists. *)
Definition hasattr (d : Sampling) (a : string) : bool :=
  if String.eqb a "threshold_" then bool_decide (is_Some (threshold_ d))
  else if String.eqb a "labels_" then bool_decide (is_Some (labels_ d))
  else existsb (String.eqb a)
         ["contamination"; "subset_size"; "metric"; "metric_params";
          "random_state"; "dist"; "subset"; "decision_scores_"].

Definition check_is_fitted (attributes : list string) : M unit :=
  let! fitted := get (fun d => forallb (hasattr d) attributes) in
  if fitted then ret tt else raise NotFittedError.

(** *** [Sampling.__init__] *)

(** sklearn's [check_random_state]. *)
Definition check_random_state (arg : random_state_arg)
    (h : gmap loc RandomState) : (exn + loc) * gmap loc RandomState :=
  match arg with
  | RsNone => (inr np_random, h)
  | RsInt seed =>
      if (0 <=? seed) && (seed <? 2 ^ 32)
      then let g := fresh (dom h) in (inr g, <[g := RandomState_new seed]> h)
      else (inl (LibraryError "RandomState"), h)
  | RsInstance g => (inr g, h)
  end.

(** [Sampling(contamination, subset_size, metric, metric_params,
    random_state)]. [super().__init__(contamination)] is [base_init]: by the
    specification the base class stores the contamination ratio and sets up
    its own bookkeeping, and [threshold_] and [labels_] come to exist only
    when it processes training scores. *)
Definition Sampling__init__ (c : Contam) (size : size_arg) (name : Metric)
    (mp : option (params Obj)) (rs : random_state_arg)
    (h : gmap loc RandomState) : (exn + Sampling) * gmap loc RandomState :=
  match check_random_state rs h with
  | (inr g, h') =>
      (inr (mkSampling c (base_init c) size name mp g None None None None None), h')
  | (inl e, h') => (inl e, h')
  end.

(** *** [Sampling.fit] *)
Definition fit (X : ndarray Feature) (y : option Target) : M unit :=
  let! X := lift (check_array X) in
  _set_n_classes y ;;
  let n := n_samples X in
  let! size := get subset_size in
  match size with
  | SInt k =>
      if negb ((0 <=? k) && (k <=? Z.of_nat n))
      then raise (ValueError_subset_size_int k n)
      else ret tt
  | SFloat _ => ret tt
  end ;;
  let! size := get subset_size in
  match size with
  | SFloat f =>
      if float_lt float_zero f && float_le f float_one
      then
        let! p := lift (float_mul_int f (Z.of_nat n)) in
        let! k := lift (int_of_float p) in
        assign (with_subset_size (SInt k))
      else raise ValueError_subset_size_float
  | SInt _ => ret tt
  end ;;
  let! size := get subset_size in
  let! random_indices :=
    match size with
    | SInt k => random_state_choice n k
    | SFloat _ => raise TypeError
    end in
  let! rows_drawn := lift (take_rows X random_indices) in
  assign (with_subset (Some rows_drawn)) ;;
  let! mp := get metric_params in
  let! name := get metric in
  let! m :=
    match mp with
    | None => call_get_metric name []
    | Some p => call_get_metric name (star p)
    end in
  assign (with_dist (Some m)) ;;
  let! pair_dist := self_dist_pairwise X in
  let! anomaly_scores := lift (np_min_axis1 pair_dist) in
  assign (with_decision_scores (Some anomaly_scores)) ;;
  _process_decision_scores.

(** *** [Sampling.decision_function] *)
Definition decision_function (X : ndarray Feature) : M (list Num) :=
  check_is_fitted ["decision_scores_"; "threshold_"; "labels_"] ;;
  let! X := lift (check_array X) in
  let! pair_dist := self_dist_pairwise X in
  let! anomaly_scores := lift (np_min_axis1 pair_dist) in
  ret anomaly_scores.

(** *** Vocabulary for the statements *)

(** The count that the two range checks of [fit] let through: [subset_size]
    itself when it is an int in range, [int(subset_size * n)] when it is a
    float in range. *)
Definition resolve_size (size : size_arg) (n : nat) : exn + Z :=
  match size with
  | SInt k =>
      if (0 <=? k) && (k <=? Z.of_nat n) then inr k
      else inl (ValueError_subset_size_int k n)
  | SFloat f =>
      if float_lt float_zero f && float_le f float_one
      then match float_mul_int f (Z.of_nat n) with
           | inl e => inl e
           | inr p => int_of_float p
           end
      else inl ValueError_subset_size_float
  end.

(** The positional arguments that [fit] hands to [get_metric]. *)
Definition resolution_args (mp : option (params Obj)) : list (pyval Obj) :=
  match mp with None => [] | Some p => star p end.

(** [v] is a least element of [row]. *)
Definition is_min (v : Num) (row : list Num) : Prop :=
  v ∈ row ∧ ∀ w, w ∈ row → leb v w = true.

(** What the statements assume of the collaborators. *)

(** [leb] is a total order. *)
Definition order_laws : Prop :=
  (∀ a b, leb a b = true ∨ leb b a = true) ∧
  (∀ a b c, leb a b = true → leb b c = true → leb a c = true) ∧
  (∀ a b, leb a b = true → leb b a = true → a = b).

(** Distances are not negative; the distance of a row to itself is zero. *)
Definition metric_nonneg : Prop :=
  ∀ m x y, leb zero (dfun m x y) = true.
Definition metric_self_zero : Prop :=
  ∀ m x, dfun m x x = zero.

(** [choice(n, size, replace=False)] returns [size] distinct indices below
    [n], and does so whenever [0 <= size <= n]. *)
Definition choice_contract : Prop :=
  (∀ g n size idx g',
     choice g n size = (inr idx, g') →
     0 <= size ∧ length idx = Z.to_nat size ∧ NoDup idx ∧
     Forall (λ i, (i < n)%nat) idx) ∧
  (∀ g n size,
     0 <= size <= Z.of_nat n → ∃ idx g', choice g n size = (inr idx, g')).

(** The state a detector is in once a [fit] call has succeeded. *)
Definition Fitted (d : Sampling) : Prop :=
  ∃ k m ref scores,
    subset_size d = SInt k ∧ 0 < k ∧
    get_metric (metric d) (resolution_args (metric_params d)) = inr m ∧
    dist d = Some m ∧
    subset d = Some ref ∧ length (rows ref) = Z.to_nat k ∧
    decision_scores_ d = Some scores ∧
    is_Some (threshold_ d) ∧ is_Some (labels_ d).

(** One more call on the same instance: a [fit] or a [decision_function],
    whatever its outcome. *)
Definition later_call (s s' : state) : Prop :=
  (∃ X y r, fit X y s = (r, s')) ∨ (∃ X r, decision_function X s = (r, s')).

(** An instance on which no [fit] call has succeeded: it comes out of the
    constructor, and has since seen failed [fit] calls, [decision_function]
    calls, and whatever other objects did to the generators. *)
Inductive never_fitted : state → Prop :=
| nf_new c size name mp rs h d h' tr :
    Sampling__init__ c size name mp rs h = (inr d, h') →
    never_fitted (mkState d h' tr)
| nf_fit s X y e s' :
    never_fitted s → fit X y s = (inl e, s') → never_fitted s'
| nf_score s X r s' :
    never_fitted s → decision_function X s = (r, s') → never_fitted s'
| nf_others s h tr :
    never_fitted s → never_fitted (mkState (self s) h tr).


(** Two detectors agree on every attribute but the generator they hold. *)
Definition same_attributes (d1 d2 : Sampling) : Prop :=
  contamination d1 = contamination d2 ∧ base d1 = base d2 ∧
  subset_size d1 = subset_size d2 ∧ metric d1 = metric d2 ∧
  metric_params d1 = metric_params d2 ∧ dist d1 = dist d2 ∧
  subset d1 = subset d2 ∧ decision_scores_ d1 = decision_scores_ d2 ∧
  threshold_ d1 = threshold_ d2 ∧ labels_ d1 = labels_ d2.

(** A sequence of [fit] calls on one instance, whatever their outcomes. *)
Definition fits (history : list (ndarray Feature * option Target)) (s : state)
    : state :=
  fold_left (λ s Xy, (fit Xy.1 Xy.2 s).2) history s.

Definition is_processing (e : event) : bool :=
  match e with Call_process_decision_scores _ => true | _ => false end.

(** Two states agree on what a detector is configured with (and on the
    base class's bookkeeping), on the generators and on the calls made; they
    may differ in what earlier [fit] calls have stored. *)
Definition same_configuration (s1 s2 : state) : Prop :=
  contamination (self s1) = contamination (self s2) ∧
  base (self s1) = base (self s2) ∧
  subset_size (self s1) = subset_size (self s2) ∧
  metric (self s1) = metric (self s2) ∧
  metric_params (self s1) = metric_params (self s2) ∧
  random_state (self s1) = random_state (self s2) ∧
  rngs s1 = rngs s2 ∧ calls s1 = calls s2.

(** The stages of [fit] that follow the range checks, for a count [k]:
    sampling, metric resolution, scoring, and the hand-over to the base
    class. [fit_unfold] below shows that [fit] is the checks followed by
    these stages. *)
Definition after_checks (X : ndarray Feature) (k : Z) : M unit :=
  let! random_indices := random_state_choice (n_samples X) k in
  let! rows_drawn := lift (take_rows X random_indices) in
  assign (with_subset (Some rows_drawn)) ;;
  let! mp := get metric_params in
  let! name := get metric in
  let! m := call_get_metric name (resolution_args mp) in
  assign (with_dist (Some m)) ;;
  let! pair_dist := self_dist_pairwise X in
  let! anomaly_scores := lift (np_min_axis1 pair_dist) in
  assign (with_decision_scores (Some anomaly_scores)) ;;
  _process_decision_scores.

(** The state in which those stages start. *)
Definition checked_state (s : state) (y : option Target) (size : size_arg)
    : state :=
  mkState (with_subset_size size
             (with_base (base_set_n_classes y (base (self s))) (self s)))
    (rngs s) (calls s).

(** The state that [fit] leaves behind when it succeeds. *)
Definition fitted_state (s : state) (y : option Target) (k : Z) (g' : RandomState)
    (idx : list nat) (X ref : ndarray Feature) (m : Dist) (scores : list Num)
    : state :=
  let d := self s in
  let c := contamination d in
  let name := metric d in
  let args := resolution_args (metric_params d) in
  mkState
    (mkSampling c
       (base_process c scores (base_set_n_classes y (base d)))
       (SInt k) name (metric_params d) (random_state d)
       (Some m) (Some ref) (Some scores)
       (Some (threshold_of c scores)) (Some (labels_of c scores)))
    (<[random_state d := g']> (rngs s))
    (calls s ++ [Call_choice (random_state d) (n_samples X) k (inr idx);
                 Call_get_metric name args (inr m);
                 Call_pairwise m X ref;
                 Call_process_decision_scores scores]).

End Sampling.

(** ** A small instance of the collaborators

    Integer features, the Manhattan and Chebyshev distances, and a generator
    that counts its draws and answers with a rotation of [0 .. n-1]. It is
    used to run the detector on concrete inputs. *)
Module Toy.

Inductive dist := L1 | Linf.

Definition toy_get_metric (name : string) (args : list (pyval Empty_set))
    : exn + dist :=
  match args with
  | [] =>
      if String.eqb name "manhattan" then inr L1
      else if String.eqb name "chebyshev" then inr Linf
      else inl (LibraryError "get_metric")
  | _ :: _ => inl TypeError
  end.

Fixpoint toy_dfun (m : dist) (x y : list Z) : Z :=
  match x, y with
  | a :: x', b :: y' =>
      match m with
      | L1 => Z.abs (a - b) + toy_dfun m x' y'
      | Linf => Z.max (Z.abs (a - b)) (toy_dfun m x' y')
      end
  | _, _ => 0
  end.

Definition rotation (g n : nat) : list nat :=
  drop (g mod n) (seq 0 n) ++ take (g mod n) (seq 0 n).

Definition toy_choice (g n : nat) (size : Z) : (exn + list nat) * nat :=
  if (0 <=? size) && (size <=? Z.of_nat n)
  then (inr (take (Z.to_nat size) (rotation g n)), S g)
  else (inl (LibraryError "choice"), g).

Definition toy_threshold (c : unit) (scores : list Z) : Z :=
  fold_right Z.max 0 scores.

#[export] Instance toy : Collaborators := {|
  Feature := Z;
  Num := Z;
  zero := 0;
  leb := Z.leb;
  Metric := string;
  Obj := Empty_set;
  Dist := dist;
  get_metric := toy_get_metric;
  dfun := toy_dfun;
  RandomState := nat;
  RandomState_new := Z.to_nat;
  choice := toy_choice;
  Contam := unit;
  Thr := Z;
  Base := nat;
  Target := list Z;
  base_init := fun _ => 0%nat;
  base_set_n_classes := fun _ _ => 2%nat;
  base_process := fun _ _ b => b;
  threshold_of := toy_threshold;
  labels_of := fun c scores => map (Z.leb (toy_threshold c scores)) scores
|}.

(** The store before any detector exists: only [np.random]'s generator. *)
Definition store0 : gmap loc nat := {[ np_random := 7%nat ]}.

(** The store once a detector has been constructed with seed 0, the
    detector that [Sampling(subset_size=size, metric=name,
    metric_params=mp, random_state=0)] returns, and the state in which its
    first method call starts. *)
Definition store1 : gmap loc nat := <[ 1%nat := 0%nat ]> store0.

Definition detector (size : size_arg) (name : string)
    (mp : option (params Empty_set)) : Sampling :=
  mkSampling tt 0%nat size name mp 1%nat None None None None None.

Definition fresh (size : size_arg) (name : string)
    (mp : option (params Empty_set)) : state :=
  mkState (detector size name mp) store1 [].

(** The state after [fit(X)] on [s]. *)
Definition fitted (X : ndarray (@Feature toy)) (s : state) : state :=
  (fit X None s).2.

Definition X4 : ndarray (@Feature toy) := Ndarray 1 [[0]; [10]; [20]; [50]].
Definition X2 : ndarray (@Feature toy) := Ndarray 1 [[3]; [4]].

(** 0.125 *)
Definition eighth : float := S754_finite false 4503599627370496 (-55).
(** The two rows that the generator seeded with 0 draws from [X4]. *)
Definition drawn : ndarray (@Feature toy) := Ndarray 1 [[0]; [10]].
(** A single row. *)
Definition single : ndarray (@Feature toy) := Ndarray 1 [[5]].
(** The rows of [X2] in the order in which the generator seeded with 1
    draws them. *)
Definition flipped : ndarray (@Feature toy) := Ndarray 1 [[4]; [3]].
(** A detector as [fresh], its generator seeded with 1. *)
Definition fresh1 (size : size_arg) (name : string)
    (mp : option (params Empty_set)) : state :=
  mkState (detector size name mp) (<[1%nat := 1%nat]> store0) [].
(** A query with two features. *)
Definition wide : ndarray (@Feature toy) := Ndarray 2 [[1; 2]].
(** A detector with the configuration of [detector], holding what an
    earlier [fit] on other data has stored. *)
Definition refitted (size : size_arg) (name : string)
    (mp : option (params Empty_set)) : state :=
  mkState (mkSampling tt 0%nat size name mp 1%nat (Some Linf)
             (Some (Ndarray 1 [[3]])) (Some [0; 1]) (Some 1)
             (Some [false; true]))
    store1 [].

End Toy.

(** ** Float arithmetic *)

Section FloatFacts.








Lemma Zdigits2_nonneg m : 0 <= Zdigits2 m.
Proof. destruct m; simpl; lia. Qed.













(** [float_floor] is the floor of the value [± m * 2 ^ e]: the value
    itself when [0 <= e], and otherwise the integer [k] with
    [k * 2 ^ -e <= ± m < (k + 1) * 2 ^ -e]. *)
Lemma float_floor_spec s m e k :
  float_floor (S754_finite s m e) = Some k →
  let z := cond_Zopp s (Z.pos m) in
  (0 <= e → k = z * 2 ^ e) ∧
  (e < 0 → k * 2 ^ (- e) <= z < (k + 1) * 2 ^ (- e)).
Proof.
  simpl. intros [= <-]. split.
  - intros He. by rewrite Z.shiftl_mul_pow2.
  - intros He. rewrite Z.shiftl_div_pow2 by lia.
    assert (0 < 2 ^ (- e)) as Hpos by (apply Z.pow_pos_nonneg; lia).
    pose proof (Z.mul_div_le (cond_Zopp s (Z.pos m)) _ Hpos).
    pose proof (Z.mul_succ_div_gt (cond_Zopp s (Z.pos m)) _ Hpos).
    lia.
Qed.





End FloatFacts.

(** ** Properties *)

Section Properties.
Context `{Collaborators}.
Implicit Types (X Y ref : ndarray Feature) (idx : list nat).
Implicit Types (pd : list (list Num)) (scores : list Num) (m : Dist).
Implicit Types (s : state) (d : Sampling) (k : Z) (y : option Target).

Ltac run1 :=
  cbv beta iota zeta delta
    [fit decision_function after_checks _set_n_classes
     _process_decision_scores check_is_fitted self_dist_pairwise
     call_get_metric random_state_choice checked_state
     with_base with_subset_size with_dist with_subset with_decision_scores
     with_threshold_labels bind get assign emit lift raise ret negb] in *;
  cbn [self rngs calls contamination base subset_size metric metric_params
       random_state dist subset decision_scores_ threshold_ labels_
       fst snd] in *.

(** Run a method body as far as the known equations decide its branches. *)
Ltac run :=
  run1;
  repeat (progress (repeat match goal with
                    | E : ?x = _ |- context [match ?x with _ => _ end] =>
                        rewrite E
                    | E : ?x = _, G : context [match ?x with _ => _ end] |- _ =>
                        rewrite E in G
                    end); run1).

Lemma check_array_id {T} (X X' : ndarray T) :
  check_array X = inr X' → X' = X.
Proof. unfold check_array. case_match; congruence. Qed.

Lemma check_array_shape {T} (X X' : ndarray T) :
  check_array X = inr X' →
  (1 ≤ n_samples X)%nat ∧ (1 ≤ n_features X)%nat ∧
  Forall (λ r, length r = n_features X) (rows X).
Proof.
  unfold check_array. case_match eqn:E; [|congruence]. intros _.
  apply andb_prop in E as [E E3]. apply andb_prop in E as [E1 E2].
  apply Nat.leb_le in E2, E3. repeat split; try done.
  apply Forall_forall. intros r Hr.
  rewrite forallb_forall in E1. apply Nat.eqb_eq, E1.
  by apply list_elem_of_In.
Qed.

(** [fit] is: [check_array], the base class's bookkeeping, the range checks,
    and then [after_checks]. *)
Lemma fit_unfold X y s :
  fit X y s =
  match check_array X with
  | inl e => (inl e, s)
  | inr _ =>
      match resolve_size (subset_size (self s)) (n_samples X) with
      | inl e => (inl e, checked_state s y (subset_size (self s)))
      | inr k => after_checks X k (checked_state s y (SInt k))
      end
  end.
Proof.
  destruct s as [[c b sz name mp rs di su ds th la] h tr].
  unfold resolve_size. run.
  destruct (check_array X) as [e|X'] eqn:EX; run; [done|].
  apply check_array_id in EX as ->.
  assert (∀ k : Z, let s1 := mkState
            (mkSampling c (base_set_n_classes y b) (SInt k) name mp rs di su
               ds th la) h tr in
          bind (random_state_choice (n_samples X) k) (λ random_indices,
            bind (lift (take_rows X random_indices)) (λ rows_drawn,
            bind (assign (with_subset (Some rows_drawn))) (λ _,
            bind (get metric_params) (λ mp,
            bind (get metric) (λ name,
            bind (match mp with
                  | None => call_get_metric name []
                  | Some p => call_get_metric name (star p)
                  end) (λ m,
            bind (assign (with_dist (Some m))) (λ _,
            bind (self_dist_pairwise X) (λ pair_dist,
            bind (lift (np_min_axis1 pair_dist)) (λ anomaly_scores,
            bind (assign (with_decision_scores (Some anomaly_scores))) (λ _,
            _process_decision_scores)))))))))) s1
          = after_checks X k s1) as Htail.
  { intros k s1. subst s1. run.
    destruct (h !! rs) as [g|]; run; [|done].
    destruct (choice g (n_samples X) k) as [[e|idx] g']; run; [done|].
    destruct (take_rows X idx); run; [done|].
    unfold resolution_args. by destruct mp. }
  destruct sz as [k|f]; run.
  - destruct ((0 <=? k) && (k <=? Z.of_nat (n_samples X))) eqn:Ek; run;
      [|done].
    apply Htail.
  - destruct (float_lt float_zero f && float_le f float_one) eqn:Ef; run;
      [|done].
    destruct (float_mul_int f (Z.of_nat (n_samples X))) as [e|p] eqn:Ep; run;
      [done|].
    destruct (int_of_float p) as [e|k] eqn:Ek; run; [done|].
    apply Htail.
Qed.

(** Case analysis on the stages of a method body. *)
Ltac stages := repeat (case_match; run; simplify_eq); run.

(** The stages after the checks leave the configuration alone. *)
Lemma after_checks_config X k s r s' :
  after_checks X k s = (r, s') →
  contamination (self s') = contamination (self s) ∧
  subset_size (self s') = subset_size (self s) ∧
  metric (self s') = metric (self s) ∧
  metric_params (self s') = metric_params (self s) ∧
  random_state (self s') = random_state (self s).
Proof. destruct s as [d h tr]. intros Hrun. run. stages; done. Qed.

(** *** Rows, draws and minima *)

Lemma take_rows_inv X idx ref :
  take_rows X idx = inr ref →
  n_features ref = n_features X ∧
  Forall2 (λ i r, rows X !! i = Some r) idx (rows ref).
Proof.
  unfold take_rows. destruct (mapM _ idx) as [rs|] eqn:E; [|done].
  intros [= <-]. split; [done|]. by apply mapM_Some in E.
Qed.

Lemma take_rows_length X idx ref :
  take_rows X idx = inr ref → length (rows ref) = length idx.
Proof.
  intros [_ Hrows]%take_rows_inv. symmetry. by eapply Forall2_length.
Qed.

Lemma take_rows_total X idx :
  Forall (λ i, (i < n_samples X)%nat) idx → ∃ ref, take_rows X idx = inr ref.
Proof.
  intros Hidx. unfold take_rows.
  destruct (mapM (λ i, rows X !! i) idx) as [rs|] eqn:E; [by eexists|].
  exfalso. assert (is_Some (mapM (λ i, rows X !! i) idx)) as [? ?]; [|congruence].
  apply mapM_is_Some. eapply Forall_impl; [exact Hidx|].
  intros i Hi. by apply lookup_lt_is_Some.
Qed.

(** A draw of [n] distinct indices below [n] hits every index. *)
Lemma full_draw (idx : list nat) (n : nat) :
  NoDup idx → length idx = n → Forall (λ i, (i < n)%nat) idx →
  ∀ i, (i < n)%nat → i ∈ idx.
Proof.
  intros Hnd Hlen Hlt i Hi.
  assert (idx ≡ₚ seq 0 n) as ->.
  { apply submseteq_length_Permutation.
    - apply NoDup_submseteq; [done|]. intros j Hj.
      rewrite Forall_forall in Hlt. apply elem_of_seq. specialize (Hlt j Hj). lia.
    - rewrite length_seq. lia. }
  apply elem_of_seq. lia.
Qed.

Lemma fold_min_spec (r : list Num) (x : Num) :
  order_laws →
  is_min (fold_left (λ a b, if leb b a then b else a) r x) (x :: r).
Proof.
  intros (Htot & Htrans & _). revert x.
  induction r as [|b r IH]; intros x; simpl.
  - split; [left|]. intros w ->%list_elem_of_singleton.
    by destruct (Htot x x).
  - destruct (leb b x) eqn:Ebx.
    + destruct (IH b) as [Hin Hle]. split.
      * apply elem_of_cons in Hin as [->|Hin]; set_solver.
      * intros w Hw. apply elem_of_cons in Hw as [->|Hw]; [|by apply Hle].
        eapply Htrans; [|exact Ebx]. apply Hle. left.
    + destruct (IH x) as [Hin Hle]. split.
      * apply elem_of_cons in Hin as [->|Hin]; set_solver.
      * intros w Hw. apply elem_of_cons in Hw as [->|Hw]; [apply Hle; left|].
        apply elem_of_cons in Hw as [->|Hw]; [|apply Hle; by right].
        eapply Htrans; [apply Hle; left|].
        destruct (Htot x b) as [?|?]; [done|congruence].
Qed.

Lemma min_row_spec (r : list Num) (v : Num) :
  order_laws → min_row r = Some v → is_min v r.
Proof.
  intros Hord. destruct r as [|x r]; [done|]. intros [= <-].
  by apply fold_min_spec.
Qed.

Lemma min_row_total (r : list Num) : r ≠ [] → is_Some (min_row r).
Proof. destruct r; [done|]. by eexists. Qed.

Lemma np_min_axis1_inv pd scores :
  np_min_axis1 pd = inr scores →
  Forall2 (λ row v, min_row row = Some v) pd scores.
Proof.
  unfold np_min_axis1. destruct (mapM min_row pd) eqn:E; [|done].
  intros [= <-]. by apply mapM_Some.
Qed.

Lemma np_min_axis1_total pd :
  Forall (λ row, row ≠ []) pd → ∃ scores, np_min_axis1 pd = inr scores.
Proof.
  intros Hne. unfold np_min_axis1.
  destruct (mapM min_row pd) as [v|] eqn:E; [by eexists|].
  assert (is_Some (mapM min_row pd)) as [? ?]; [|congruence].
  apply mapM_is_Some. eapply Forall_impl; [exact Hne|].
  intros row. apply min_row_total.
Qed.

Lemma np_min_axis1_empty pd :
  pd ≠ [] → Forall (λ row, row = []) pd →
  np_min_axis1 pd = inl ValueError_zero_size_reduction.
Proof.
  intros Hne Hem. unfold np_min_axis1.
  destruct (mapM min_row pd) as [v|] eqn:E; [|done].
  apply mapM_Some in E. destruct E as [|row w pd' v' Hrow _]; [done|].
  apply Forall_cons in Hem as [-> _]. done.
Qed.

Lemma map_fmap {T U} (f : T → U) (l : list T) : map f l = f <$> l.
Proof. reflexivity. Qed.

Lemma pairwise_inv m X Y pd :
  pairwise m X Y = inr pd →
  n_features X = n_features Y ∧
  pd = map (λ x, map (dfun m x) (rows Y)) (rows X).
Proof.
  unfold pairwise. destruct (Nat.eqb_spec (n_features X) (n_features Y)); [|done].
  by intros [= <-].
Qed.

(** *** The stages of [fit] *)

Lemma after_checks_success_inv X k s s' :
  after_checks X k s = (inr tt, s') →
  ∃ g g' idx ref m pd scores,
    rngs s !! random_state (self s) = Some g ∧
    choice g (n_samples X) k = (inr idx, g') ∧
    take_rows X idx = inr ref ∧
    get_metric (metric (self s)) (resolution_args (metric_params (self s))) = inr m ∧
    pairwise m X ref = inr pd ∧
    np_min_axis1 pd = inr scores ∧
    self s' = mkSampling (contamination (self s))
                (base_process (contamination (self s)) scores (base (self s)))
                (subset_size (self s)) (metric (self s))
                (metric_params (self s)) (random_state (self s))
                (Some m) (Some ref) (Some scores)
                (Some (threshold_of (contamination (self s)) scores))
                (Some (labels_of (contamination (self s)) scores)) ∧
    rngs s' = <[random_state (self s) := g']> (rngs s) ∧
    calls s' = calls s ++
      [Call_choice (random_state (self s)) (n_samples X) k (inr idx);
       Call_get_metric (metric (self s))
         (resolution_args (metric_params (self s))) (inr m);
       Call_pairwise m X ref;
       Call_process_decision_scores scores].
Proof.
  destruct s as [d h tr]. intros Hrun. run. stages.
  repeat eexists; try done. by rewrite <- !app_assoc.
Qed.

Lemma after_checks_success X k s g g' idx ref m pd scores :
  rngs s !! random_state (self s) = Some g →
  choice g (n_samples X) k = (inr idx, g') →
  take_rows X idx = inr ref →
  get_metric (metric (self s)) (resolution_args (metric_params (self s))) = inr m →
  pairwise m X ref = inr pd →
  np_min_axis1 pd = inr scores →
  ∃ s', after_checks X k s = (inr tt, s').
Proof.
  destruct s as [d h tr]. intros Hg Hc Ht Hm Hp Hn. run. by eexists.
Qed.

(** A failing run of the stages does not touch what the base class and the
    scoring publish. *)
Lemma after_checks_failure X k s e s' :
  after_checks X k s = (inl e, s') →
  decision_scores_ (self s') = decision_scores_ (self s) ∧
  threshold_ (self s') = threshold_ (self s) ∧
  labels_ (self s') = labels_ (self s).
Proof. destruct s as [d h tr]. intros Hrun. run. stages; done. Qed.

(** The subset after the stages is the old one, or the rows drawn. *)
Lemma after_checks_subset X k s r s' :
  after_checks X k s = (r, s') →
  subset (self s') = subset (self s) ∨
  ∃ g g' idx ref,
    choice g (n_samples X) k = (inr idx, g') ∧
    take_rows X idx = inr ref ∧ subset (self s') = Some ref.
Proof.
  destruct s as [d h tr]. intros Hrun. run. stages; eauto 10.
Qed.

(** The metric object after the stages is the old one, or the resolved
    one. *)
Lemma after_checks_dist X k s r s' :
  after_checks X k s = (r, s') →
  dist (self s') = dist (self s) ∨
  ∃ m, get_metric (metric (self s)) (resolution_args (metric_params (self s)))
         = inr m ∧ dist (self s') = Some m.
Proof.
  destruct s as [d h tr]. intros Hrun. run. stages; eauto.
Qed.

(** The calls that the stages add: at most one draw, of [k] out of the
    rows of [X]; at most one metric resolution, with [resolution_args]. *)
Lemma after_checks_calls X k s r s' :
  after_checks X k s = (r, s') →
  ∃ tr, calls s' = calls s ++ tr ∧
    (length (filter (λ ev, is_sampling ev = true) tr) ≤ 1)%nat ∧
    (length (filter (λ ev, is_resolution ev = true) tr) ≤ 1)%nat ∧
    ∀ ev, ev ∈ tr →
      match ev with
      | Call_choice g n size _ =>
          g = random_state (self s) ∧ n = n_samples X ∧ size = k
      | Call_get_metric name args res =>
          name = metric (self s) ∧
          args = resolution_args (metric_params (self s)) ∧
          res = get_metric name args
      | _ => True
      end.
Proof.
  destruct s as [d h tr]. intros Hrun. run. stages;
    rewrite <- ?app_assoc; simpl;
    (eexists; split; [try done; by rewrite app_nil_r|]);
    (split; [cbv; lia|]); (split; [cbv; lia|]);
    intros ev Hev;
    repeat (apply elem_of_cons in Hev as [->|Hev]; [done|]);
    by apply elem_of_nil in Hev.
Qed.

(** *** [fit] as a whole *)

Lemma fit_check_array_failure X y s e :
  check_array X = inl e → fit X y s = (inl e, s).
Proof. intros E. by rewrite fit_unfold, E. Qed.


Lemma fit_resolve_success X y s k :
  check_array X = inr X →
  resolve_size (subset_size (self s)) (n_samples X) = inr k →
  fit X y s = after_checks X k (checked_state s y (SInt k)).
Proof. intros EX E. by rewrite fit_unfold, EX, E. Qed.

Lemma resolve_size_int k (n : nat) k' :
  resolve_size (SInt k) n = inr k' → k' = k ∧ 0 <= k <= Z.of_nat n.
Proof.
  unfold resolve_size. destruct (_ && _) eqn:E; [|done].
  intros [= <-]. split; [done|]. lia.
Qed.

(** [fit] never changes the metric configuration, the generator reference
    or the contamination ratio. *)
Lemma fit_config X y s r s' :
  fit X y s = (r, s') →
  contamination (self s') = contamination (self s) ∧
  metric (self s') = metric (self s) ∧
  metric_params (self s') = metric_params (self s) ∧
  random_state (self s') = random_state (self s).
Proof.
  rewrite fit_unfold. destruct (check_array X); [by intros [= _ <-]|].
  destruct (resolve_size _ _); [by intros [= _ <-]|].
  intros (? & ? & ? & ? & ?)%after_checks_config. done.
Qed.

(** Once [subset_size] is an int, [fit] leaves it as it is. *)
Lemma fit_subset_size_int X y s r s' k :
  subset_size (self s) = SInt k →
  fit X y s = (r, s') → subset_size (self s') = SInt k.
Proof.
  intros Hk. rewrite fit_unfold. destruct (check_array X); [by intros [= _ <-]|].
  rewrite Hk. destruct (resolve_size _ _) as [e|k'] eqn:E; [by intros [= _ <-]|].
  apply resolve_size_int in E as [-> _].
  intros (? & ? & _)%after_checks_config. done.
Qed.

(** A failing [fit] leaves the scores, the threshold and the labels as they
    were. *)
Lemma fit_failure X y s e s' :
  fit X y s = (inl e, s') →
  decision_scores_ (self s') = decision_scores_ (self s) ∧
  threshold_ (self s') = threshold_ (self s) ∧
  labels_ (self s') = labels_ (self s).
Proof.
  rewrite fit_unfold. destruct (check_array X); [by intros [= _ <-]|].
  destruct (resolve_size _ _); [by intros [= _ <-]|].
  intros (? & ? & ?)%after_checks_failure. done.
Qed.

(** A [fit] call that returns went through every stage. *)
Lemma fit_success_inv X y s s' :
  fit X y s = (inr tt, s') →
  ∃ k g g' idx ref m pd scores,
    check_array X = inr X ∧
    resolve_size (subset_size (self s)) (n_samples X) = inr k ∧
    rngs s !! random_state (self s) = Some g ∧
    choice g (n_samples X) k = (inr idx, g') ∧
    take_rows X idx = inr ref ∧
    get_metric (metric (self s)) (resolution_args (metric_params (self s))) = inr m ∧
    pairwise m X ref = inr pd ∧
    np_min_axis1 pd = inr scores ∧
    s' = fitted_state s y k g' idx X ref m scores.
Proof.
  rewrite fit_unfold. destruct (check_array X) as [|X'] eqn:EX; [done|].
  apply check_array_id in EX as EX'. subst X'.
  destruct (resolve_size _ _) as [|k] eqn:Ek; [done|].
  intros (g & g' & idx & ref & m & pd & scores & Hg & Hc & Ht & Hm & Hp & Hn
          & Hself & Hrngs & Hcalls)%after_checks_success_inv.
  exists k, g, g', idx, ref, m, pd, scores. repeat (split; [done|]).
  destruct s' as [d' h' tr']. unfold fitted_state. simpl in *. by subst.
Qed.

Lemma fit_success X y s k g g' idx ref m pd scores :
  check_array X = inr X →
  resolve_size (subset_size (self s)) (n_samples X) = inr k →
  rngs s !! random_state (self s) = Some g →
  choice g (n_samples X) k = (inr idx, g') →
  take_rows X idx = inr ref →
  get_metric (metric (self s)) (resolution_args (metric_params (self s))) = inr m →
  pairwise m X ref = inr pd →
  np_min_axis1 pd = inr scores →
  fit X y s = (inr tt, fitted_state s y k g' idx X ref m scores).
Proof.
  intros EX Ek Hg Hc Ht Hm Hp Hn.
  destruct (after_checks_success X k (checked_state s y (SInt k))
              g g' idx ref m pd scores) as [s' Hs']; try done.
  assert (fit X y s = (inr tt, s')) as Hfit by by rewrite fit_unfold, EX, Ek.
  rewrite Hfit. apply fit_success_inv in Hfit
    as (k1 & g1 & g1' & idx1 & ref1 & m1 & pd1 & sc1 & _ & ? & ? & ? & ? & ?
        & ? & ? & ->).
  congruence.
Qed.

(** *** The fitted state *)

(** The rows drawn by a [fit] that returns: as many as asked for, and at
    least one, since [np.min] went through. *)
Lemma scored_subset_nonempty X ref m pd scores :
  check_array X = inr X →
  pairwise m X ref = inr pd → np_min_axis1 pd = inr scores →
  rows ref ≠ [].
Proof.
  intros (HN & _ & _)%check_array_shape [_ ->]%pairwise_inv Hmin%np_min_axis1_inv.
  unfold n_samples in HN. destruct (rows X) as [|x xs]; [simpl in HN; lia|].
  simpl in Hmin. inversion Hmin as [|? ? ? ? Hrow _]; subst.
  destruct (rows ref); [done|done].
Qed.

Lemma fit_establishes_Fitted X y s s' :
  choice_contract → fit X y s = (inr tt, s') → Fitted (self s').
Proof.
  intros [Hsound _] (k & g & g' & idx & ref & m & pd & scores & EX & Ek & Hg
                     & Hc & Ht & Hm & Hp & Hn & ->)%fit_success_inv.
  destruct (Hsound _ _ _ _ _ Hc) as (Hk & Hlen & _ & _).
  pose proof (take_rows_length _ _ _ Ht) as Hrows.
  pose proof (scored_subset_nonempty _ _ _ _ _ EX Hp Hn) as Hne.
  exists k, m, ref, scores. simpl. repeat split; try done.
  - destruct (rows ref); [done|]. simpl in *. lia.
  - lia.
Qed.

(** Every later [fit] on a fitted detector, failing or not, leaves it
    fitted. *)
Lemma fit_preserves_Fitted X y s r s' :
  choice_contract → Fitted (self s) → fit X y s = (r, s') → Fitted (self s').
Proof.
  intros Hcc (k & m & ref & scores & Hk & Hpos & Hm & Hd & Hs & Hlen & Hsc & Ht & Hl).
  destruct r as [e|[]]; [|by apply fit_establishes_Fitted].
  intros Hfit.
  pose proof (fit_subset_size_int _ _ _ _ _ _ Hk Hfit) as Hk'.
  pose proof (fit_config _ _ _ _ _ Hfit) as (_ & Hme & Hmp & _).
  pose proof (fit_failure _ _ _ _ _ Hfit) as (Hsc' & Ht' & Hl').
  revert Hfit. rewrite fit_unfold.
  destruct (check_array X) as [|X'] eqn:EX.
  { intros [= _ <-]. by exists k, m, ref, scores. }
  rewrite Hk. destruct (resolve_size _ _) as [|k1] eqn:Ek.
  { intros [= _ <-]. by exists k, m, ref, scores. }
  apply resolve_size_int in Ek as [-> _]. intros Hrun.
  pose proof (after_checks_subset _ _ _ _ _ Hrun) as Hsub.
  pose proof (after_checks_dist _ _ _ _ _ Hrun) as Hdist.
  simpl in Hsub, Hdist.
  assert (dist (self s') = Some m) as Hd'.
  { destruct Hdist as [->|(m' & Hm' & ->)]; [done|]. congruence. }
  assert (∃ ref', subset (self s') = Some ref' ∧
                  length (rows ref') = Z.to_nat k) as (ref' & Hs' & Hlen').
  { destruct Hsub as [->|(g & g' & idx & ref' & Hc & Htk & ->)]; [by eauto|].
    exists ref'. split; [done|]. destruct Hcc as [Hsound _].
    destruct (Hsound _ _ _ _ _ Hc) as (_ & Hl1 & _).
    by rewrite (take_rows_length _ _ _ Htk). }
  exists k, m, ref', scores. rewrite Hme, Hmp, Hsc', Ht', Hl'. done.
Qed.

(** *** [decision_function] *)

Lemma fitted_check d :
  forallb (hasattr d) ["decision_scores_"; "threshold_"; "labels_"]
  = bool_decide (is_Some (threshold_ d)) && bool_decide (is_Some (labels_ d)).
Proof. cbn. by rewrite andb_true_r. Qed.

(** A detector without a threshold or without labels is refused, and
    nothing else happens. *)
Lemma decision_function_refused X s :
  threshold_ (self s) = None ∨ labels_ (self s) = None →
  decision_function X s = (inl NotFittedError, s).
Proof.
  intros Hnone. unfold decision_function, check_is_fitted, bind, get.
  rewrite fitted_check.
  destruct Hnone as [-> | ->]; cbn; [done|].
  by rewrite andb_false_r.
Qed.

(** [decision_function] only adds to the calls. *)
Lemma decision_function_frame X s :
  ∃ tr, (decision_function X s).2 = mkState (self s) (rngs s) (calls s ++ tr) ∧
        Forall (λ ev, is_sampling ev = false ∧ is_resolution ev = false) tr.
Proof.
  destruct s as [d h tr]. unfold decision_function, check_is_fitted, bind, get.
  destruct (forallb _ _); run; [|exists []; by rewrite app_nil_r].
  stages; try (exists []; by rewrite app_nil_r);
    (eexists [_]; split; [done|]; by repeat constructor).
Qed.

Lemma decision_function_on_fitted X s m ref pd :
  is_Some (threshold_ (self s)) → is_Some (labels_ (self s)) →
  dist (self s) = Some m → subset (self s) = Some ref →
  check_array X = inr X → pairwise m X ref = inr pd →
  decision_function X s =
    (np_min_axis1 pd,
     mkState (self s) (rngs s) (calls s ++ [Call_pairwise m X ref])).
Proof.
  destruct s as [d h tr]. intros Ht Hl Hd Hs EX Hp.
  unfold decision_function, check_is_fitted, bind, get. rewrite fitted_check.
  simpl in *. rewrite !bool_decide_eq_true_2 by done. cbn [andb]. run.
  by destruct (np_min_axis1 pd).
Qed.

(** *** Later calls on the same instance *)

Lemma later_call_subset_size s s' k :
  subset_size (self s) = SInt k → later_call s s' →
  subset_size (self s') = SInt k.
Proof.
  intros Hk [(X & y & r & Hfit)|(X & r & Hdf)].
  - by eapply fit_subset_size_int.
  - destruct (decision_function_frame X s) as (tr & E & _).
    rewrite Hdf in E. simpl in E. by subst.
Qed.

Lemma later_call_Fitted s s' :
  choice_contract → Fitted (self s) → later_call s s' → Fitted (self s').
Proof.
  intros Hcc HF [(X & y & r & Hfit)|(X & r & Hdf)].
  - by eapply fit_preserves_Fitted.
  - destruct (decision_function_frame X s) as (tr & E & _).
    rewrite Hdf in E. simpl in E. by subst.
Qed.

Lemma later_calls_subset_size s s' k :
  subset_size (self s) = SInt k → rtc later_call s s' →
  subset_size (self s') = SInt k.
Proof. intros Hk Hrtc. induction Hrtc; eauto using later_call_subset_size. Qed.

Lemma later_calls_Fitted s s' :
  choice_contract → Fitted (self s) → rtc later_call s s' → Fitted (self s').
Proof. intros Hcc HF Hrtc. induction Hrtc; eauto using later_call_Fitted. Qed.

(** *** Scoring *)

(** C1. On a fitted detector, and for a query matrix that passes
    [check_array] and has the feature count of the stored subset,
    [decision_function] computes the full matrix of distances between the
    query rows and the subset rows under the stored metric (one row per
    query row, one column per subset row, entry [(i, j)] the distance of
    query row [i] to subset row [j]) and returns its row-wise minimum: one
    score per query row, each a least entry of its row, and none negative
    when the metric yields no negative distance. *)
Theorem C1_score_is_row_minimum X s :
  order_laws → metric_nonneg →
  Fitted (self s) →
  check_array X = inr X →
  (∀ ref, subset (self s) = Some ref → n_features X = n_features ref) →
  ∃ m ref pd scores,
    dist (self s) = Some m ∧ subset (self s) = Some ref ∧
    pairwise m X ref = inr pd ∧
    length pd = n_samples X ∧
    Forall (λ row, length row = n_samples ref) pd ∧
    (∀ i j x r, rows X !! i = Some x → rows ref !! j = Some r →
       pd !! i ≫= (λ row, row !! j) = Some (dfun m x r)) ∧
    (decision_function X s).1 = inr scores ∧
    Forall2 is_min scores pd ∧
    length scores = n_samples X ∧
    Forall (λ v, leb zero v = true) scores.
Proof.
  intros Hord Hnn (k & m & ref & sc & Hk & Hpos & Hm & Hd & Hs & Hlen & Hsc
                   & Ht & Hl) EX Hfeat.
  specialize (Hfeat ref Hs).
  set (pd := (λ x, dfun m x <$> rows ref) <$> rows X).
  assert (pairwise m X ref = inr pd) as Hp.
  { unfold pairwise. by rewrite Hfeat, Nat.eqb_refl. }
  assert (rows ref ≠ []) as Hne.
  { destruct (rows ref); [simpl in Hlen; lia|done]. }
  destruct (np_min_axis1_total pd) as [scores Hmin].
  { apply Forall_forall. intros row (x & -> & _)%list_elem_of_fmap.
    by destruct (rows ref). }
  exists m, ref, pd, scores. repeat (split; [done|]).
  apply np_min_axis1_inv in Hmin as Hrows.
  split; [unfold pd; by rewrite length_fmap|]. split.
  { apply Forall_forall. intros row (x & -> & _)%list_elem_of_fmap.
    by rewrite length_fmap. }
  split.
  { intros i j x r Hi Hj. unfold pd. rewrite list_lookup_fmap, Hi. simpl.
    by rewrite list_lookup_fmap, Hj. }
  split.
  { by rewrite (decision_function_on_fitted X s m ref pd). }
  split.
  { apply Forall2_flip. eapply Forall2_impl; [exact Hrows|].
    intros row v Hv. by apply min_row_spec. }
  split.
  { apply Forall2_length in Hrows. rewrite <- Hrows. unfold pd.
    by rewrite length_fmap. }
  apply Forall_forall. intros v Hv.
  apply list_elem_of_lookup in Hv as [i Hi].
  destruct (Forall2_lookup_r _ _ _ _ _ Hrows Hi) as (row & Hrow & Hv').
  apply min_row_spec in Hv' as [Hin _]; [|done].
  unfold pd in Hrow. rewrite list_lookup_fmap in Hrow.
  destruct (rows X !! i) as [x|]; [|done]. simpl in Hrow. simplify_eq.
  apply list_elem_of_fmap in Hin as (r & -> & _). apply Hnn.
Qed.

(** *** Reproducibility *)

(** [fit] is a function of the attributes, the data and the state of the
    generator the detector holds. *)
Lemma fit_deterministic X y s1 s2 :
  same_attributes (self s1) (self s2) →
  rngs s1 !! random_state (self s1) = rngs s2 !! random_state (self s2) →
  (fit X y s1).1 = (fit X y s2).1 ∧
  same_attributes (self (fit X y s1).2) (self (fit X y s2).2) ∧
  rngs (fit X y s1).2 !! random_state (self (fit X y s1).2)
  = rngs (fit X y s2).2 !! random_state (self (fit X y s2).2).
Proof.
  destruct s1 as [[c1 b1 sz1 n1 mp1 rs1 di1 su1 ds1 th1 la1] h1 tr1].
  destruct s2 as [[c2 b2 sz2 n2 mp2 rs2 di2 su2 ds2 th2 la2] h2 tr2].
  unfold same_attributes. simpl.
  intros (-> & -> & -> & -> & -> & -> & -> & -> & -> & ->) Hg.
  rewrite !fit_unfold. simpl.
  destruct (check_array X); [done|].
  destruct (resolve_size sz2 (n_samples X)) as [|k]; [done|].
  run.
  destruct (h2 !! rs2) as [g|] eqn:Eg; run; [|by rewrite ?Hg, ?Eg].
  destruct (choice g (n_samples X) k) as [[e|idx] g'] eqn:Ec; run;
    [by rewrite !lookup_insert_eq|].
  destruct (take_rows X idx) as [e|ref] eqn:Et; run;
    [by rewrite !lookup_insert_eq|].
  destruct (get_metric n2 (resolution_args mp2)) as [e|m] eqn:Em; run;
    [by rewrite !lookup_insert_eq|].
  destruct (pairwise m X ref) as [e|pd] eqn:Ep; run;
    [by rewrite !lookup_insert_eq|].
  destruct (np_min_axis1 pd) as [e|scores] eqn:En; run;
    by rewrite !lookup_insert_eq.
Qed.

Lemma fits_deterministic history s1 s2 :
  same_attributes (self s1) (self s2) →
  rngs s1 !! random_state (self s1) = rngs s2 !! random_state (self s2) →
  same_attributes (self (fits history s1)) (self (fits history s2)) ∧
  rngs (fits history s1) !! random_state (self (fits history s1))
  = rngs (fits history s2) !! random_state (self (fits history s2)).
Proof.
  revert s1 s2. induction history as [|[X y] history IH]; intros s1 s2 Ha Hg;
    [done|].
  simpl. destruct (fit_deterministic X y s1 s2 Ha Hg) as (_ & Ha' & Hg').
  by apply IH.
Qed.

(** The constructor, given an integer seed, makes a generator of its own. *)
Lemma Sampling__init__seed c size name mp seed h d h' :
  Sampling__init__ c size name mp (RsInt seed) h = (inr d, h') →
  d = mkSampling c (base_init c) size name mp (random_state d)
        None None None None None ∧
  h' !! random_state d = Some (RandomState_new seed).
Proof.
  unfold Sampling__init__, check_random_state.
  destruct ((0 <=? seed) && (seed <? 2 ^ 32)); [|done].
  intros [= <- <-]. simpl. by rewrite lookup_insert_eq.
Qed.

(** C2 (as amended). Two detectors constructed with the same integer seed
    and the same configuration, and taken through the same sequence of
    [fit] calls, agree on the next [fit] of the same data: same outcome,
    same reference subset, same training scores. (Nothing of the kind holds
    for two successive [fit] calls on one instance: the second draws from
    the state in which the first left the generator.) *)
Theorem C2_same_seed_same_fits c size name mp seed h1 h2 d1 d2 h1' h2' tr1 tr2
    history X y :
  Sampling__init__ c size name mp (RsInt seed) h1 = (inr d1, h1') →
  Sampling__init__ c size name mp (RsInt seed) h2 = (inr d2, h2') →
  let s1 := fits history (mkState d1 h1' tr1) in
  let s2 := fits history (mkState d2 h2' tr2) in
  (fit X y s1).1 = (fit X y s2).1 ∧
  subset (self (fit X y s1).2) = subset (self (fit X y s2).2) ∧
  decision_scores_ (self (fit X y s1).2)
  = decision_scores_ (self (fit X y s2).2).
Proof.
  intros [Hd1 Hg1]%Sampling__init__seed [Hd2 Hg2]%Sampling__init__seed s1 s2.
  destruct (fits_deterministic history (mkState d1 h1' tr1)
              (mkState d2 h2' tr2)) as [Ha Hg].
  { rewrite Hd1, Hd2. by repeat split. }
  { simpl. by rewrite Hg1, Hg2. }
  destruct (fit_deterministic X y s1 s2 Ha Hg)
    as (Hr & (_ & _ & _ & _ & _ & _ & Hsub & Hsc & _ & _) & _).
  done.
Qed.

(** *** The range checks *)



(** *** Before the first successful [fit] *)

Lemma never_fitted_no_threshold s :
  never_fitted s → threshold_ (self s) = None.
Proof.
  induction 1 as [c size name mp rs h d h' tr Hinit|s X y e s' _ IH Hfit
                  |s X r s' _ IH Hdf|s h tr _ IH].
  - unfold Sampling__init__ in Hinit.
    destruct (check_random_state rs h) as [[e|g] h0]; by simplify_eq.
  - destruct (fit_failure _ _ _ _ _ Hfit) as (_ & -> & _). done.
  - destruct (decision_function_frame X s) as (tr & E & _).
    rewrite Hdf in E. simpl in E. by subst.
  - done.
Qed.

(** C4. On an instance on which no [fit] call has succeeded,
    [decision_function] raises [NotFittedError], and does so before any
    call to a collaborator: the state, calls included, is as it was. *)
Theorem C4_score_before_fit_is_refused X s :
  never_fitted s →
  ∃ e, decision_function X s = (inl e, s) ∧ NotFitted e.
Proof.
  intros Hnf%never_fitted_no_threshold. exists NotFittedError.
  split; [|done]. apply decision_function_refused. by left.
Qed.

(** *** Scoring leaves the detector alone *)

Lemma decision_function_result X s1 s2 :
  self s1 = self s2 → (decision_function X s1).1 = (decision_function X s2).1.
Proof.
  destruct s1 as [d1 h1 tr1], s2 as [d2 h2 tr2]. simpl. intros ->.
  run. stages; done.
Qed.

(** C5. [decision_function] changes no attribute of the detector and no
    generator, whatever its outcome; called again with the same input, it
    gives the same outcome. *)
Theorem C5_score_is_read_only X s :
  self (decision_function X s).2 = self s ∧
  rngs (decision_function X s).2 = rngs s ∧
  (decision_function X (decision_function X s).2).1
  = (decision_function X s).1.
Proof.
  destruct (decision_function_frame X s) as (tr & E & _).
  rewrite E. simpl. repeat split. by apply decision_function_result.
Qed.

(** *** The boundaries of [subset_size] *)

(** C6 (what the code does). With [subset_size = 0], data that passes
    [check_array], a live generator and a metric that resolves, [fit] is
    not stopped by its range check: it draws no index, stores an empty
    subset and the metric object, computes distance rows of length zero,
    and then [np.min] raises over the empty axis. The error is not the one
    of the range checks, and no scores are produced. *)
Theorem C6_zero_subset_size X y s g m :
  choice_contract →
  check_array X = inr X →
  subset_size (self s) = SInt 0 →
  rngs s !! random_state (self s) = Some g →
  get_metric (metric (self s)) (resolution_args (metric_params (self s))) = inr m →
  ∃ s' g',
    fit X y s = (inl ValueError_zero_size_reduction, s') ∧
    ¬ InvalidParameter ValueError_zero_size_reduction ∧
    subset (self s') = Some (Ndarray (n_features X) []) ∧
    dist (self s') = Some m ∧
    decision_scores_ (self s') = decision_scores_ (self s) ∧
    threshold_ (self s') = threshold_ (self s) ∧
    rngs s' = <[random_state (self s) := g']> (rngs s) ∧
    calls s' = calls s ++
      [Call_choice (random_state (self s)) (n_samples X) 0 (inr []);
       Call_get_metric (metric (self s))
         (resolution_args (metric_params (self s))) (inr m);
       Call_pairwise m X (Ndarray (n_features X) [])].
Proof.
  intros [Hsound Htotal] EX Hsz Hg Hm.
  destruct (check_array_shape _ _ EX) as (HN & _ & _).
  destruct (Htotal g (n_samples X) 0) as (idx & g' & Hc); [lia|].
  destruct (Hsound _ _ _ _ _ Hc) as (_ & Hlen & _ & _).
  destruct idx; [|done]. clear Hlen.
  assert (np_min_axis1 (map (λ x, map (dfun m x) []) (rows X))
          = inl ValueError_zero_size_reduction) as Hmin.
  { apply np_min_axis1_empty.
    - unfold n_samples in HN. destruct (rows X); [simpl in HN; lia|done].
    - rewrite map_fmap. apply Forall_fmap, Forall_forall. by intros. }
  rewrite fit_unfold, EX, Hsz.
  assert (resolve_size (SInt 0) (n_samples X) = inr 0) as ->.
  { unfold resolve_size. destruct (_ && _) eqn:E; [done|]. lia. }
  assert (take_rows X [] = inr (Ndarray (n_features X) [])) as Ht by done.
  assert (pairwise m X (Ndarray (n_features X) [])
          = inr (map (λ x, map (dfun m x) []) (rows X))) as Hp.
  { unfold pairwise. simpl. by rewrite Nat.eqb_refl. }
  destruct s as [d h tr]. simpl in *. run.
  eexists _, g'. split; [done|]. split; [by intros []|]. simpl.
  repeat (split; [done|]). by rewrite <- !app_assoc.
Qed.

(** C9. With [subset_size] equal to the number of rows, data that passes
    [check_array], a live generator and a metric that resolves, [fit]
    succeeds, and the training scores are all zero, provided distances are
    not negative and a row is at distance zero from itself. *)
Theorem C9_full_sample_scores_zero X y s g m :
  order_laws → metric_nonneg → metric_self_zero → choice_contract →
  check_array X = inr X →
  subset_size (self s) = SInt (Z.of_nat (n_samples X)) →
  rngs s !! random_state (self s) = Some g →
  get_metric (metric (self s)) (resolution_args (metric_params (self s))) = inr m →
  ∃ s', fit X y s = (inr tt, s') ∧
        decision_scores_ (self s') = Some (replicate (n_samples X) zero).
Proof.
  intros Hord Hnn Hself [Hsound Htotal] EX Hsz Hg Hm.
  destruct (check_array_shape _ _ EX) as (HN & _ & _).
  destruct (Htotal g (n_samples X) (Z.of_nat (n_samples X)))
    as (idx & g' & Hc); [lia|].
  destruct (Hsound _ _ _ _ _ Hc) as (_ & Hlen & Hnd & Hlt).
  rewrite Nat2Z.id in Hlen.
  destruct (take_rows_total X idx Hlt) as [ref Ht].
  destruct (take_rows_inv _ _ _ Ht) as [Hfeat Hrows].
  set (pd := (λ x, dfun m x <$> rows ref) <$> rows X).
  assert (pairwise m X ref = inr pd) as Hp.
  { unfold pairwise. by rewrite Hfeat, Nat.eqb_refl. }
  assert (rows ref ≠ []) as Hne.
  { apply Forall2_length in Hrows. destruct (rows ref); [simpl in *; lia|done]. }
  destruct (np_min_axis1_total pd) as [scores Hmin].
  { apply Forall_forall. intros row (x & -> & _)%list_elem_of_fmap.
    by destruct (rows ref). }
  eexists. split.
  { eapply fit_success; try done. rewrite Hsz. unfold resolve_size.
    destruct (_ && _) eqn:E; [done|]. lia. }
  simpl. f_equal. symmetry. apply replicate_as_Forall.
  apply np_min_axis1_inv in Hmin as Hmins.
  split.
  { apply Forall2_length in Hmins. rewrite <- Hmins. unfold pd.
    by rewrite length_fmap. }
  apply Forall_forall. intros v Hv.
  apply list_elem_of_lookup in Hv as [i Hi].
  destruct (Forall2_lookup_r _ _ _ _ _ Hmins Hi) as (row & Hrow & Hv).
  apply min_row_spec in Hv as [Hin Hle]; [|done].
  unfold pd in Hrow. rewrite list_lookup_fmap in Hrow.
  destruct (rows X !! i) as [x|] eqn:Hx; [|done]. simpl in Hrow.
  simplify_eq.
  assert (x ∈ rows ref) as Hxin.
  { apply lookup_lt_Some in Hx as Hi'.
    pose proof (full_draw idx (n_samples X) Hnd Hlen Hlt i Hi') as Hidx.
    apply list_elem_of_lookup in Hidx as [j Hj].
    destruct (Forall2_lookup_l _ _ _ _ _ Hrows Hj) as (r & Hr & Hxr).
    apply list_elem_of_lookup. exists j. congruence. }
  destruct Hord as (_ & _ & Hanti). symmetry. apply Hanti.
  - apply Hle. apply list_elem_of_fmap. exists x. by rewrite Hself.
  - apply list_elem_of_fmap in Hin as (r & -> & _). apply Hnn.
Qed.

(** *** The subset over the life of an instance *)

(** C7 (as amended). A [fit] that returns has drawn its indices without
    repetition and stored the rows at those indices; it leaves
    [subset_size] an int [k], and after any later calls on the instance
    [subset_size] is still [k] and the stored subset still has [k] rows;
    [decision_function] never replaces the stored subset. (A later [fit]
    does draw again: see the counterexample.) *)
Theorem C7_draw_without_repetition X y s s1 :
  choice_contract →
  fit X y s = (inr tt, s1) →
  ∃ k idx ref,
    Call_choice (random_state (self s)) (n_samples X) k (inr idx) ∈ calls s1 ∧
    NoDup idx ∧ length idx = Z.to_nat k ∧
    take_rows X idx = inr ref ∧
    subset (self s1) = Some ref ∧
    subset_size (self s1) = SInt k ∧
    ∀ s2, rtc later_call s1 s2 →
      subset_size (self s2) = SInt k ∧
      (∃ ref2, subset (self s2) = Some ref2 ∧ n_samples ref2 = Z.to_nat k) ∧
      ∀ Xq, subset (self (decision_function Xq s2).2) = subset (self s2).
Proof.
  intros Hcc Hfit.
  pose proof (fit_establishes_Fitted _ _ _ _ Hcc Hfit) as HF.
  apply fit_success_inv in Hfit
    as (k & g & g' & idx & ref & m & pd & scores & EX & Ek & Hg & Hc & Ht
        & Hm & Hp & Hn & ->).
  destruct Hcc as [Hsound Htotal].
  destruct (Hsound _ _ _ _ _ Hc) as (_ & Hlen & Hnd & _).
  exists k, idx, ref. simpl. split.
  { apply elem_of_app. right. left. }
  repeat (split; [done|]).
  intros s2 Hrtc.
  pose proof (later_calls_subset_size _ s2 k
                (eq_refl : subset_size (self (fitted_state s y k g' idx X ref m
                                                scores)) = SInt k) Hrtc) as Hk2.
  pose proof (later_calls_Fitted _ _ (conj Hsound Htotal) HF Hrtc)
    as (k2 & m2 & ref2 & sc2 & Hk2' & _ & _ & _ & Hs2 & Hlen2 & _).
  split; [done|]. split.
  { exists ref2. split; [done|]. unfold n_samples. congruence. }
  intros Xq. destruct (decision_function_frame Xq s2) as (tr & -> & _). done.
Qed.


(** *** Metric resolution *)

(** A [fit] that returns resolves the metric exactly once, with
    [resolution_args], and stores the object it got. *)
Lemma fit_resolves_once X y s s1 :
  fit X y s = (inr tt, s1) →
  ∃ m tr,
    calls s1 = calls s ++ tr ∧
    filter (λ ev, is_resolution ev = true) tr
    = [Call_get_metric (metric (self s))
         (resolution_args (metric_params (self s))) (inr m)] ∧
    dist (self s1) = Some m.
Proof.
  intros (k & g & g' & idx & ref & m & pd & scores & _ & _ & _ & _ & _ & _
          & _ & _ & ->)%fit_success_inv.
  exists m. eexists. split; [done|]. split; [|done].
  rewrite !filter_cons. simpl. repeat case_decide; done.
Qed.

(** [decision_function] resolves nothing: the one distance computation it
    makes uses the stored metric object. *)
Lemma decision_function_reuses_dist X s :
  ∃ tr, calls (decision_function X s).2 = calls s ++ tr ∧
    ∀ ev, ev ∈ tr →
      ∃ m ref, ev = Call_pairwise m X ref ∧
               dist (self s) = Some m ∧ subset (self s) = Some ref.
Proof.
  destruct s as [d h tr]. run.
  destruct (check_array X) as [e|X'] eqn:EX;
    [|apply check_array_id in EX as EX'; subst X'];
  stages; try (exists []; split; [by rewrite app_nil_r|];
               by intros ev ?%elem_of_nil);
    (eexists [_]; split; [done|]; intros ev ->%list_elem_of_singleton;
     eexists _, _; split; [reflexivity|]; by split).
Qed.

(** With a dict for [metric_params], what reaches [get_metric] is the
    dict's keys, as positional arguments; the values reach nothing. *)
Lemma fit_forwards_keys X y s r s1 items :
  metric_params (self s) = Some (PDict items) →
  fit X y s = (r, s1) →
  ∃ tr, calls s1 = calls s ++ tr ∧
    ∀ name args res, Call_get_metric name args res ∈ tr →
                     args = map (λ kv, PStr kv.1) items.
Proof.
  intros Hmp. rewrite fit_unfold.
  destruct (check_array X).
  { intros [= _ <-]. exists []. split; [by rewrite app_nil_r|].
    by intros ??? ?%elem_of_nil. }
  destruct (resolve_size _ _) as [|k].
  { intros [= _ <-]. exists []. split; [by rewrite app_nil_r|].
    by intros ??? ?%elem_of_nil. }
  intros (tr & Htr & _ & _ & Hev)%after_checks_calls.
  exists tr. split; [done|]. intros name args res Hin.
  destruct (Hev _ Hin) as (_ & -> & _). simpl. by rewrite Hmp.
Qed.

(** ** Further properties of [fit] and [decision_function] *)

(** The least entry of the row of distances from [x] is zero when [x] is
    one of the reference rows. *)
Lemma zero_row_min m x (reference : list (list Feature)) v :
  order_laws → metric_nonneg → metric_self_zero →
  min_row (dfun m x <$> reference) = Some v → x ∈ reference → v = zero.
Proof.
  intros Hord Hnn Hself Hmin Hx.
  apply min_row_spec in Hmin as [Hin Hle]; [|done].
  destruct Hord as (_ & _ & Hanti). apply Hanti.
  - rewrite <- (Hself m x). apply Hle. apply list_elem_of_fmap. by exists x.
  - apply list_elem_of_fmap in Hin as (r & -> & _). apply Hnn.
Qed.

(** The generators after the stages: the detector's own generator, if it
    is live, has made one draw; nothing else has changed. *)
Lemma after_checks_generator X k s r s' :
  after_checks X k s = (r, s') →
  rngs s' =
  match rngs s !! random_state (self s) with
  | Some g =>
      <[random_state (self s) := (choice g (n_samples X) k).2]> (rngs s)
  | None => rngs s
  end.
Proof.
  destruct s as [d h tr]. intros Hrun. run.
  stages; repeat match goal with
                 | E : choice _ _ _ = _ |- _ => rewrite E; clear E
                 end; done.
Qed.

(** X1. Training scores are scores: after a [fit] that returns, scoring the
    training data gives [decision_scores_]. *)
Theorem training_scores_are_scores X y s s' :
  fit X y s = (inr tt, s') →
  ∃ scores, decision_scores_ (self s') = Some scores ∧
            (decision_function X s').1 = inr scores ∧
            length scores = n_samples X.
Proof.
  intros (k & g & g' & idx & ref & m & pd & scores & EX & _ & _ & _ & _ & _
          & Hp & Hn & ->)%fit_success_inv.
  exists scores. split; [done|]. split.
  - rewrite (decision_function_on_fitted X _ m ref pd); try done;
      simpl; by eexists.
  - apply np_min_axis1_inv, Forall2_length in Hn. rewrite <- Hn.
    apply pairwise_inv in Hp as [_ ->]. by rewrite length_map.
Qed.

(** X2. A query row that is one of the reference rows scores zero. *)
Theorem reference_rows_score_zero X s :
  order_laws → metric_nonneg → metric_self_zero →
  Fitted (self s) →
  check_array X = inr X →
  (∀ ref, subset (self s) = Some ref → n_features X = n_features ref) →
  ∃ ref scores,
    subset (self s) = Some ref ∧
    (decision_function X s).1 = inr scores ∧
    ∀ i x, rows X !! i = Some x → x ∈ rows ref → scores !! i = Some zero.
Proof.
  intros Hord Hnn Hself (k & m & ref & sc & Hk & Hpos & Hm & Hd & Hs & Hlen
                         & Hsc & Ht & Hl) EX Hfeat.
  specialize (Hfeat ref Hs).
  set (pd := (λ x, dfun m x <$> rows ref) <$> rows X).
  assert (pairwise m X ref = inr pd) as Hp.
  { unfold pairwise. by rewrite Hfeat, Nat.eqb_refl. }
  destruct (np_min_axis1_total pd) as [scores Hmin].
  { apply Forall_forall. intros row (x & -> & _)%list_elem_of_fmap.
    destruct (rows ref); [simpl in Hlen; lia|done]. }
  exists ref, scores. split; [done|]. split.
  { by rewrite (decision_function_on_fitted X s m ref pd). }
  intros i x Hi Hx. apply np_min_axis1_inv in Hmin.
  assert (pd !! i = Some (dfun m x <$> rows ref)) as Hrow.
  { unfold pd. by rewrite list_lookup_fmap, Hi. }
  destruct (Forall2_lookup_l _ _ _ _ _ Hmin Hrow) as (v & Hv & Hmv).
  rewrite Hv. f_equal. by eapply zero_row_min.
Qed.

(** X3. After a [fit] that returns, every training row that is one of the rows
    drawn has training score zero. *)
Theorem drawn_rows_train_to_zero X y s s' :
  order_laws → metric_nonneg → metric_self_zero →
  fit X y s = (inr tt, s') →
  ∃ ref scores,
    subset (self s') = Some ref ∧ decision_scores_ (self s') = Some scores ∧
    ∀ i x, rows X !! i = Some x → x ∈ rows ref → scores !! i = Some zero.
Proof.
  intros Hord Hnn Hself
    (k & g & g' & idx & ref & m & pd & scores & EX & _ & _ & _ & _ & _
     & Hp & Hn & ->)%fit_success_inv.
  exists ref, scores. repeat (split; [done|]).
  intros i x Hi Hx. apply np_min_axis1_inv in Hn.
  apply pairwise_inv in Hp as [_ ->].
  assert (map (λ x, map (dfun m x) (rows ref)) (rows X) !! i
          = Some (dfun m x <$> rows ref)) as Hrow.
  { rewrite map_fmap, list_lookup_fmap, Hi. done. }
  destruct (Forall2_lookup_l _ _ _ _ _ Hn Hrow) as (v & Hv & Hmv).
  rewrite Hv. f_equal. by eapply zero_row_min.
Qed.

(** X4. A query with another feature count than the stored subset is refused
    by the distance computation, and the detector is left as it was. *)
Theorem feature_count_mismatch X s :
  Fitted (self s) →
  check_array X = inr X →
  (∀ ref, subset (self s) = Some ref → n_features X ≠ n_features ref) →
  ∃ tr, decision_function X s
        = (inl ValueError_dimension,
           mkState (self s) (rngs s) (calls s ++ tr)).
Proof.
  intros (k & m & ref & sc & Hk & Hpos & Hm & Hd & Hs & Hlen & Hsc & Ht & Hl)
    EX Hfeat.
  specialize (Hfeat ref Hs).
  assert (pairwise m X ref = inl ValueError_dimension) as Hp.
  { unfold pairwise. by destruct (Nat.eqb_spec (n_features X) (n_features ref)). }
  destruct s as [d h tr]. exists [Call_pairwise m X ref].
  unfold decision_function, check_is_fitted, bind, get. rewrite fitted_check.
  simpl in *. rewrite !bool_decide_eq_true_2 by done. cbn [andb]. by run.
Qed.

(** X5. [fit] is not all-or-nothing: when the metric does not resolve, the
    range checks, the draw and the replacement of the subset have already
    happened; the metric object, the scores, the threshold and the labels
    of an earlier [fit] stay. *)
Theorem fit_fails_at_resolution X y s k g g' idx ref e :
  check_array X = inr X →
  resolve_size (subset_size (self s)) (n_samples X) = inr k →
  rngs s !! random_state (self s) = Some g →
  choice g (n_samples X) k = (inr idx, g') →
  take_rows X idx = inr ref →
  get_metric (metric (self s)) (resolution_args (metric_params (self s))) = inl e →
  ∃ s',
    fit X y s = (inl e, s') ∧
    subset (self s') = Some ref ∧
    subset_size (self s') = SInt k ∧
    rngs s' = <[random_state (self s) := g']> (rngs s) ∧
    dist (self s') = dist (self s) ∧
    decision_scores_ (self s') = decision_scores_ (self s) ∧
    threshold_ (self s') = threshold_ (self s) ∧
    labels_ (self s') = labels_ (self s).
Proof.
  intros EX Ek Hg Hc Ht Hm. rewrite (fit_resolve_success _ _ _ _ EX Ek).
  destruct s as [d h tr]. simpl in *. run. by eexists.
Qed.

(** X6. [fit] draws from the generator the detector holds and from no
    other. *)
Theorem fit_leaves_other_generators X y s (l : loc) :
  l ≠ random_state (self s) →
  rngs (fit X y s).2 !! l = rngs s !! l.
Proof.
  intros Hl. rewrite fit_unfold. destruct (check_array X); [done|].
  destruct (resolve_size _ _) as [|k]; [done|].
  destruct (after_checks _ _ _) as [r s'] eqn:Ea.
  apply after_checks_generator in Ea. simpl in *. rewrite Ea.
  destruct (rngs s !! random_state (self s)); [|done].
  by rewrite lookup_insert_ne.
Qed.

(** X7. A [fit] that gets past the range checks takes exactly one draw from
    the detector's generator, whether or not it fails later. *)
Theorem fit_takes_one_draw X y s k g :
  check_array X = inr X →
  resolve_size (subset_size (self s)) (n_samples X) = inr k →
  rngs s !! random_state (self s) = Some g →
  rngs (fit X y s).2
  = <[random_state (self s) := (choice g (n_samples X) k).2]> (rngs s) ∧
  filter (λ ev, is_sampling ev = true)
    (drop (length (calls s)) (calls (fit X y s).2))
  = [Call_choice (random_state (self s)) (n_samples X) k
       (choice g (n_samples X) k).1].
Proof.
  intros EX Ek Hg. rewrite (fit_resolve_success _ _ _ _ EX Ek).
  destruct s as [d h tr]. simpl in *. run.
  destruct (choice g (n_samples X) k) as [res g'] eqn:Ec. run. simpl.
  stages; simpl; (split; [done|]);
    rewrite <- ?app_assoc, drop_app_length; done.
Qed.

(** X8. Detectors constructed with [random_state=None] hold one and the same
    generator, the one of [np.random]: the constructor allocates nothing,
    and a [fit] of one detector moves the generator of the other. *)
Theorem none_seed_shares_generator c1 size1 name1 mp1 c2 size2 name2 mp2
    h d1 h1 d2 h2 :
  Sampling__init__ c1 size1 name1 mp1 RsNone h = (inr d1, h1) →
  Sampling__init__ c2 size2 name2 mp2 RsNone h1 = (inr d2, h2) →
  h2 = h ∧
  random_state d1 = np_random ∧ random_state d2 = np_random ∧
  ∀ X y tr k g,
    check_array X = inr X →
    resolve_size size1 (n_samples X) = inr k →
    h !! np_random = Some g →
    rngs (fit X y (mkState d1 h2 tr)).2 !! random_state d2
    = Some (choice g (n_samples X) k).2.
Proof.
  unfold Sampling__init__, check_random_state. intros [= <- <-] [= <- <-].
  repeat (split; [done|]). intros X y tr k g EX Ek Hg.
  rewrite fit_unfold, EX. simpl. rewrite Ek.
  destruct (after_checks _ _ _) as [r s'] eqn:Ea.
  apply after_checks_generator in Ea. simpl in *. rewrite Ea, Hg.
  by rewrite lookup_insert_eq.
Qed.

(** X9. The base class is handed the training scores once by a [fit] that
    returns, the scores being the ones stored in [decision_scores_], and
    never by a [fit] that raises. *)
Theorem scores_handed_over_once X y s :
  filter (λ ev, is_processing ev = true)
    (drop (length (calls s)) (calls (fit X y s).2))
  = match (fit X y s).1, decision_scores_ (self (fit X y s).2) with
    | inr _, Some scores => [Call_process_decision_scores scores]
    | _, _ => []
    end.
Proof.
  rewrite fit_unfold. destruct (check_array X).
  { simpl. by rewrite drop_all. }
  destruct (resolve_size _ _) as [|k].
  { simpl. by rewrite drop_all. }
  destruct s as [d h tr]. run. simpl.
  stages; simpl; rewrite <- ?app_assoc, ?drop_app_length, ?drop_all; done.
Qed.

(** X10. Re-fitting starts afresh: what a [fit] that returns leaves behind does
    not depend on the subset, metric object, scores, threshold or labels
    that earlier [fit] calls have stored. *)
Theorem refit_replaces_fitted_state X y s1 s2 s' :
  same_configuration s1 s2 →
  fit X y s1 = (inr tt, s') →
  fit X y s2 = (inr tt, s').
Proof.
  intros (Hc & Hb & Hsz & Hme & Hmp & Hrs & Hrngs & Hcalls)
    (k & g & g' & idx & ref & m & pd & scores & EX & Ek & Hg & Hch & Ht & Hm
     & Hp & Hn & ->)%fit_success_inv.
  rewrite (fit_success X y s2 k g g' idx ref m pd scores); try done;
    try congruence.
  unfold fitted_state. by rewrite Hc, Hb, Hme, Hmp, Hrs, Hrngs, Hcalls.
Qed.

(** With a count of zero no [fit] returns. *)
Lemma zero_count_fit_fails X y s :
  choice_contract →
  (subset_size (self s) = SInt 0 ∨
   resolve_size (subset_size (self s)) (n_samples X) = inr 0) →
  (fit X y s).1 ≠ inr tt.
Proof.
  intros [Hsound _] Hzero Hok.
  destruct (fit X y s) as [r s'] eqn:Hfit. simpl in Hok. subst r.
  apply fit_success_inv in Hfit
    as (k & g & g' & idx & ref & m & pd & scores & EX & Ek & _ & Hc & Ht & _
        & Hp & Hn & _).
  assert (k = 0) as ->.
  { destruct Hzero as [Hz|Hz]; [|congruence].
    rewrite Hz in Ek. by apply resolve_size_int in Ek as [-> _]. }
  destruct (Hsound _ _ _ _ _ Hc) as (_ & Hlen & _).
  apply take_rows_length in Ht. rewrite Hlen in Ht.
  apply (scored_subset_nonempty _ _ _ _ _ EX Hp Hn).
  by destruct (rows ref).
Qed.

(** X11. A [subset_size] that the range checks turn into a count of zero (the
    int 0, or a fraction with [int(fraction * N) = 0]) makes [fit] raise,
    leaves [subset_size] at the int 0, and from then on no [fit] on the
    instance returns, whatever the data. *)
Theorem zero_count_never_fits X y s :
  choice_contract →
  check_array X = inr X →
  resolve_size (subset_size (self s)) (n_samples X) = inr 0 →
  (∃ e, (fit X y s).1 = inl e) ∧
  subset_size (self (fit X y s).2) = SInt 0 ∧
  ∀ s2, rtc later_call (fit X y s).2 s2 →
        ∀ X2 y2, (fit X2 y2 s2).1 ≠ inr tt.
Proof.
  intros Hcc EX Ek.
  pose proof (zero_count_fit_fails X y s Hcc (or_intror Ek)) as Hfail.
  assert (subset_size (self (fit X y s).2) = SInt 0) as Hsz.
  { rewrite (fit_resolve_success _ _ _ _ EX Ek).
    destruct (after_checks _ _ _) as [r s'] eqn:Ea.
    apply after_checks_config in Ea as (_ & Hs' & _). simpl in *. done. }
  split; [|split; [done|]].
  - destruct (fit X y s).1 as [e|[]]; [by exists e|done].
  - intros s2 Hrtc X2 y2.
    apply zero_count_fit_fails; [done|]. left.
    by eapply later_calls_subset_size.
Qed.

(** X12. Fitted is for good: after a [fit] that returns and any later calls on
    the instance, failed [fit] calls included, [decision_function] answers
    every query that passes [check_array] and has the feature count of the
    stored subset, with one score per row. *)
Theorem fitted_is_stable X y s s1 s2 Xq :
  choice_contract →
  fit X y s = (inr tt, s1) →
  rtc later_call s1 s2 →
  check_array Xq = inr Xq →
  (∀ ref, subset (self s2) = Some ref → n_features Xq = n_features ref) →
  ∃ scores, (decision_function Xq s2).1 = inr scores ∧
            length scores = n_samples Xq.
Proof.
  intros Hcc Hfit Hrtc EX Hfeat.
  pose proof (fit_establishes_Fitted _ _ _ _ Hcc Hfit) as HF.
  destruct (later_calls_Fitted _ _ Hcc HF Hrtc)
    as (k & m & ref & sc & Hk & Hpos & Hm & Hd & Hs & Hlen & Hsc & Ht & Hl).
  specialize (Hfeat ref Hs).
  set (pd := (λ x, dfun m x <$> rows ref) <$> rows Xq).
  assert (pairwise m Xq ref = inr pd) as Hp.
  { unfold pairwise. by rewrite Hfeat, Nat.eqb_refl. }
  destruct (np_min_axis1_total pd) as [scores Hmin].
  { apply Forall_forall. intros row (x & -> & _)%list_elem_of_fmap.
    destruct (rows ref); [simpl in Hlen; lia|done]. }
  exists scores. split.
  - by rewrite (decision_function_on_fitted Xq s2 m ref pd).
  - apply np_min_axis1_inv, Forall2_length in Hmin. rewrite <- Hmin.
    unfold pd. by rewrite length_fmap.
Qed.

(** The least entry of a row is no larger than the least entry of a row
    whose entries all occur in it. *)
Lemma min_row_antitone (r1 r2 : list Num) v1 v2 :
  order_laws → min_row r1 = Some v1 → min_row r2 = Some v2 →
  (∀ w, w ∈ r1 → w ∈ r2) → leb v2 v1 = true.
Proof.
  intros Hord Hm1 Hm2 Hsub.
  apply min_row_spec in Hm1 as [Hin1 _]; [|done].
  apply min_row_spec in Hm2 as [_ Hle2]; [|done].
  apply Hle2, Hsub, Hin1.
Qed.

(** Nearest distances to a set of reference rows are no larger than
    nearest distances to a part of it. *)
Lemma nearest_antitone m X ref1 ref2 pd1 pd2 sc1 sc2 :
  order_laws →
  pairwise m X ref1 = inr pd1 → pairwise m X ref2 = inr pd2 →
  np_min_axis1 pd1 = inr sc1 → np_min_axis1 pd2 = inr sc2 →
  (∀ r, r ∈ rows ref1 → r ∈ rows ref2) →
  Forall2 (λ a b, leb b a = true) sc1 sc2.
Proof.
  intros Hord [_ ->]%pairwise_inv [_ ->]%pairwise_inv
    Hn1%np_min_axis1_inv Hn2%np_min_axis1_inv Hsub.
  rewrite !map_fmap in *.
  apply Forall2_same_length_lookup. split.
  { apply Forall2_length in Hn1, Hn2. rewrite !length_fmap in *. congruence. }
  intros i a b Ha Hb.
  destruct (Forall2_lookup_r _ _ _ _ _ Hn1 Ha) as (row1 & Hr1 & Hm1).
  destruct (Forall2_lookup_r _ _ _ _ _ Hn2 Hb) as (row2 & Hr2 & Hm2).
  rewrite list_lookup_fmap in Hr1, Hr2.
  destruct (rows X !! i) as [x|]; [|done]. simpl in *. simplify_eq.
  eapply min_row_antitone; [done|exact Hm1|exact Hm2|].
  rewrite !map_fmap. intros w (r & -> & Hr)%list_elem_of_fmap.
  apply list_elem_of_fmap. exists r. split; [done|by apply Hsub].
Qed.

(** The scores of a fitted detector on a query that passes [check_array]
    and has the feature count of the stored subset. *)
Lemma fitted_scores X s m ref :
  Fitted (self s) →
  dist (self s) = Some m → subset (self s) = Some ref →
  check_array X = inr X → n_features X = n_features ref →
  ∃ pd scores,
    pairwise m X ref = inr pd ∧ np_min_axis1 pd = inr scores ∧
    (decision_function X s).1 = inr scores.
Proof.
  intros (k & m' & ref' & sc & Hk & Hpos & Hm & Hd & Hs & Hlen & Hsc & Ht
          & Hl) Hd' Hs' EX Hfeat.
  assert (m' = m) as -> by congruence. assert (ref' = ref) as -> by congruence.
  set (pd := (λ x, dfun m x <$> rows ref) <$> rows X).
  assert (pairwise m X ref = inr pd) as Hp.
  { unfold pairwise. by rewrite Hfeat, Nat.eqb_refl. }
  destruct (np_min_axis1_total pd) as [scores Hmin].
  { apply Forall_forall. intros row (x & -> & _)%list_elem_of_fmap.
    destruct (rows ref); [simpl in Hlen; lia|done]. }
  exists pd, scores. repeat (split; [done|]).
  by rewrite (decision_function_on_fitted X s m ref pd).
Qed.

(** X13. More reference rows, lower scores: of two fitted detectors with the
    same metric object, the one whose subset holds every row of the
    other's gives each query row a score that is no larger. *)
Theorem more_references_lower_scores X s1 s2 ref1 ref2 :
  order_laws →
  Fitted (self s1) → Fitted (self s2) →
  dist (self s1) = dist (self s2) →
  subset (self s1) = Some ref1 → subset (self s2) = Some ref2 →
  (∀ r, r ∈ rows ref1 → r ∈ rows ref2) →
  check_array X = inr X →
  n_features X = n_features ref1 → n_features X = n_features ref2 →
  ∃ sc1 sc2,
    (decision_function X s1).1 = inr sc1 ∧
    (decision_function X s2).1 = inr sc2 ∧
    Forall2 (λ a b, leb b a = true) sc1 sc2.
Proof.
  intros Hord HF1 HF2 Hd Hs1 Hs2 Hsub EX Hf1 Hf2.
  assert (∃ m, dist (self s1) = Some m) as [m Hd1].
  { destruct HF1 as (? & m & ? & ? & ? & ? & ? & Hd1 & ?). by exists m. }
  assert (dist (self s2) = Some m) as Hd2 by congruence.
  destruct (fitted_scores X s1 m ref1) as (pd1 & sc1 & Hp1 & Hn1 & Hr1);
    try done.
  destruct (fitted_scores X s2 m ref2) as (pd2 & sc2 & Hp2 & Hn2 & Hr2);
    try done.
  exists sc1, sc2. repeat (split; [done|]).
  exact (nearest_antitone m X ref1 ref2 pd1 pd2 sc1 sc2
           Hord Hp1 Hp2 Hn1 Hn2 Hsub).
Qed.

(** X14. The scores depend on which rows the subset holds, not on the order in
    which they were drawn: two fitted detectors with the same metric object
    and subsets of the same rows score every query alike. *)
Theorem scores_ignore_draw_order X s1 s2 ref1 ref2 :
  order_laws →
  Fitted (self s1) → Fitted (self s2) →
  dist (self s1) = dist (self s2) →
  subset (self s1) = Some ref1 → subset (self s2) = Some ref2 →
  (∀ r, r ∈ rows ref1 ↔ r ∈ rows ref2) →
  check_array X = inr X →
  n_features X = n_features ref1 → n_features X = n_features ref2 →
  (decision_function X s1).1 = (decision_function X s2).1.
Proof.
  intros Hord HF1 HF2 Hd Hs1 Hs2 Hsame EX Hf1 Hf2.
  assert (∃ m, dist (self s1) = Some m) as [m Hd1].
  { destruct HF1 as (? & m & ? & ? & ? & ? & ? & Hd1 & ?). by exists m. }
  assert (dist (self s2) = Some m) as Hd2 by congruence.
  destruct (fitted_scores X s1 m ref1) as (pd1 & sc1 & Hp1 & Hn1 & Hr1);
    try done.
  destruct (fitted_scores X s2 m ref2) as (pd2 & sc2 & Hp2 & Hn2 & Hr2);
    try done.
  rewrite Hr1, Hr2. f_equal. apply list_eq_Forall2.
  assert (Forall2 (λ a b, leb b a = true) sc1 sc2) as H12.
  { apply (nearest_antitone m X ref1 ref2 pd1 pd2 sc1 sc2
             Hord Hp1 Hp2 Hn1 Hn2). intros r. apply Hsame. }
  assert (Forall2 (λ a b, leb b a = true) sc2 sc1) as H21.
  { apply (nearest_antitone m X ref2 ref1 pd2 pd1 sc2 sc1
             Hord Hp2 Hp1 Hn2 Hn1). intros r. apply Hsame. }
  apply Forall2_same_length_lookup. split; [by eapply Forall2_length|].
  intros i a b Ha Hb. destruct Hord as (_ & _ & Hanti). apply Hanti.
  - exact (Forall2_lookup_lr _ _ _ _ _ _ H21 Hb Ha).
  - exact (Forall2_lookup_lr _ _ _ _ _ _ H12 Ha Hb).
Qed.

End Properties.

(** ** The instance meets the contracts *)

Import Toy.

Lemma toy_order_laws : @order_laws Toy.toy.
Proof.
  repeat split; simpl.
  - intros a b. destruct (Z.leb_spec a b); [by left|right]. apply Z.leb_le. lia.
  - intros a b c ?%Z.leb_le ?%Z.leb_le. apply Z.leb_le. lia.
  - intros a b ?%Z.leb_le ?%Z.leb_le. lia.
Qed.

Lemma toy_metric_nonneg : @metric_nonneg Toy.toy.
Proof.
  intros m x. simpl. induction x as [|a x IH]; intros [|b y]; simpl; try done.
  specialize (IH y). apply Z.leb_le in IH. apply Z.leb_le. destruct m; lia.
Qed.

Lemma toy_metric_self_zero : @metric_self_zero Toy.toy.
Proof.
  intros m x. simpl. induction x as [|a x IH]; simpl; [done|].
  rewrite IH, Z.sub_diag. by destruct m.
Qed.

Lemma rotation_Permutation (g n : nat) : Toy.rotation g n ≡ₚ seq 0 n.
Proof.
  unfold Toy.rotation. rewrite Permutation_app_comm. by rewrite take_drop.
Qed.

Lemma toy_choice_contract : @choice_contract Toy.toy.
Proof.
  split; simpl; unfold Toy.toy_choice.
  - intros g n size idx g'.
    destruct ((0 <=? size) && (size <=? Z.of_nat n)) eqn:E; [|done].
    apply andb_prop in E as [E1%Z.leb_le E2%Z.leb_le]. intros [= <- <-].
    pose proof (rotation_Permutation g n) as Hp.
    assert (NoDup (Toy.rotation g n)) as Hnd.
    { rewrite Hp. apply NoDup_seq. }
    split; [done|]. split.
    { rewrite length_take, Hp, length_seq. lia. }
    split.
    { rewrite <- (take_drop (Z.to_nat size)) in Hnd.
      by apply NoDup_app in Hnd as [? _]. }
    apply Forall_take. rewrite Hp. apply Forall_forall.
    intros i Hi%elem_of_seq. lia.
  - intros g n size [E1%Z.leb_le E2%Z.leb_le]. rewrite E1, E2. by eexists _, _.
Qed.

Lemma toy_constructed size name mp :
  Sampling__init__ tt size name mp (RsInt 0) Toy.store0
  = (inr (Toy.detector size name mp), Toy.store1).
Proof. by vm_compute. Qed.

Lemma toy_fresh_never_fitted size name mp : never_fitted (Toy.fresh size name mp).
Proof. eapply nf_new. apply toy_constructed. Qed.

(** ** The statements at concrete inputs *)

(** C1 at a detector fitted on four rows and a query of two rows. *)
Lemma C1_witness :
  Fitted (self (fitted X4 (fresh (SInt 2) "manhattan" None))) ∧
  check_array X2 = inr X2 ∧
  ∃ scores,
    (decision_function X2 (fitted X4 (fresh (SInt 2) "manhattan" None))).1
    = inr scores ∧
    length scores = n_samples X2 ∧
    Forall (λ v, leb zero v = true) scores.
Proof.
  assert (Fitted (self (fitted X4 (fresh (SInt 2) "manhattan" None)))) as HF.
  { apply (fit_establishes_Fitted X4 None (fresh (SInt 2) "manhattan" None)
             _ toy_choice_contract). by vm_compute. }
  assert (check_array X2 = inr X2) as EX by by vm_compute.
  split; [exact HF|]. split; [exact EX|].
  destruct (C1_score_is_row_minimum X2
              (fitted X4 (fresh (SInt 2) "manhattan" None))
              toy_order_laws toy_metric_nonneg HF EX)
    as (m & ref & pd & scores & _ & _ & _ & _ & _ & _ & Hdf & _ & Hlen & Hnn).
  { intros ref. vm_compute. by intros [= <-]. }
  by exists scores.
Defined.

(** C2 (as amended) at two detectors made with seed 0 in two different
    stores, each fitted once before. *)
Lemma C2_witness :
  match @Sampling__init__ toy tt (SInt 2) "manhattan" None (RsInt 0) store1 with
  | (inr d2, h2) =>
      let s1 := fits [(X4, None)] (fresh (SInt 2) "manhattan" None) in
      let s2 := fits [(X4, None)] (mkState d2 h2 []) in
      (fit X4 None s1).1 = (fit X4 None s2).1 ∧
      subset (self (fit X4 None s1).2) = subset (self (fit X4 None s2).2) ∧
      decision_scores_ (self (fit X4 None s1).2)
      = decision_scores_ (self (fit X4 None s2).2)
  | _ => False
  end.
Proof.
  destruct (@Sampling__init__ toy tt (SInt 2) "manhattan" None (RsInt 0) store1)
    as [[e|d2] h2] eqn:E2; [by vm_compute in E2|].
  exact (C2_same_seed_same_fits (H := toy) tt (SInt 2) "manhattan" None 0 store0 store1
           _ d2 _ h2 [] [] [(X4, None)] X4 None
           (toy_constructed (SInt 2) "manhattan" None) E2).
Defined.

(** Counterexample to C2 as stated: two successive [fit] calls on one
    instance, same seed, same data; both succeed, and the subsets and the
    training scores differ. *)
Lemma C2_refit_differs :
  (fit X2 None (fresh (SInt 1) "chebyshev" None)).1 = inr tt ∧
  (fit X2 None (fitted X2 (fresh (SInt 1) "chebyshev" None))).1 = inr tt ∧
  subset (self (fitted X2 (fresh (SInt 1) "chebyshev" None)))
  ≠ subset (self (fitted X2 (fitted X2 (fresh (SInt 1) "chebyshev" None)))) ∧
  decision_scores_ (self (fitted X2 (fresh (SInt 1) "chebyshev" None)))
  ≠ decision_scores_
      (self (fitted X2 (fitted X2 (fresh (SInt 1) "chebyshev" None)))).
Proof. vm_compute. repeat split; try done; intros [=]. Qed.


(** C4 at an instance whose only [fit] call has failed. *)
Lemma C4_witness :
  (fit X4 None (fresh (SInt 9) "manhattan" None)).1
  = inl (ValueError_subset_size_int 9 4) ∧
  ∃ e, decision_function X2
         (fit X4 None (fresh (SInt 9) "manhattan" None)).2
       = (inl e, (fit X4 None (fresh (SInt 9) "manhattan" None)).2) ∧
       NotFitted e.
Proof.
  split; [by vm_compute|].
  apply C4_score_before_fit_is_refused.
  eapply (nf_fit (fresh (SInt 9) "manhattan" None) X4 None).
  - apply toy_fresh_never_fitted.
  - by vm_compute.
Defined.

(** C6 at [subset_size = 0] on four rows. *)
Lemma C6_witness :
  ∃ s',
    fit X4 None (fresh (SInt 0) "manhattan" None)
    = (inl ValueError_zero_size_reduction, s') ∧
    subset (self s') = Some (Ndarray 1 []) ∧
    decision_scores_ (self s') = None.
Proof.
  destruct (C6_zero_subset_size X4 None (fresh (SInt 0) "manhattan" None)
              0%nat L1 toy_choice_contract)
    as (s' & g' & Hfit & _ & Hsub & _ & Hsc & _); try by vm_compute.
  by exists s'.
Defined.

(** C7 (as amended) at a first [fit] on four rows. *)
Lemma C7_witness :
  ∃ k idx ref,
    NoDup idx ∧ length idx = Z.to_nat k ∧
    take_rows X4 idx = inr ref ∧
    subset (self (fitted X4 (fresh (SInt 2) "manhattan" None))) = Some ref ∧
    subset_size (self (fitted X4 (fresh (SInt 2) "manhattan" None))) = SInt k.
Proof.
  destruct (C7_draw_without_repetition X4 None
              (fresh (SInt 2) "manhattan" None)
              (fitted X4 (fresh (SInt 2) "manhattan" None))
              toy_choice_contract)
    as (k & idx & ref & _ & Hnd & Hlen & Ht & Hsub & Hsz & _);
    [by vm_compute|].
  by exists k, idx, ref.
Defined.

(** Counterexample to C7 as stated: a later [fit] on the same instance
    draws again, and the stored subset is replaced. *)
Lemma C7_refit_resamples :
  subset (self (fitted X4 (fresh (SInt 2) "manhattan" None)))
  = Some (Ndarray 1 [[0]; [10]]) ∧
  subset (self (fitted X4 (fitted X4 (fresh (SInt 2) "manhattan" None))))
  = Some (Ndarray 1 [[10]; [20]]) ∧
  filter (λ ev, is_sampling ev = true)
    (calls (fitted X4 (fitted X4 (fresh (SInt 2) "manhattan" None))))
  = [Call_choice 1%nat 4 2 (inr [0%nat; 1%nat]);
     Call_choice 1%nat 4 2 (inr [1%nat; 2%nat])].
Proof. by vm_compute. Qed.

(** C8 (what the code does). With [metric_params = {"p": 3}], the
    documented dict of keyword arguments, [fit] calls
    [get_metric("minkowski", "p")]: the key goes as a positional argument
    and the value 3 goes nowhere, although [**metric_params] would forward
    [p=3]. Here the resolution raises, after the draw and before any
    scoring. *)
Theorem C8_metric_params_keys_only :
  double_star (PDict [("p", PInt 3)])
  = Some [("p", @PInt Empty_set 3)] ∧
  (fit X4 None (fresh (SInt 2) "minkowski" (Some (PDict [("p", PInt 3)])))).1
  = inl TypeError ∧
  calls (fit X4 None
           (fresh (SInt 2) "minkowski" (Some (PDict [("p", PInt 3)])))).2
  = [Call_choice 1%nat 4 2 (inr [0%nat; 1%nat]);
     Call_get_metric "minkowski" [PStr "p"] (inl TypeError)].
Proof. by vm_compute. Qed.

(** C9 at [subset_size = 4] on four rows. *)
Lemma C9_witness :
  ∃ s', fit X4 None (fresh (SInt 4) "manhattan" None) = (inr tt, s') ∧
        decision_scores_ (self s') = Some [0; 0; 0; 0].
Proof.
  destruct (C9_full_sample_scores_zero X4 None
              (fresh (SInt 4) "manhattan" None) 0%nat L1
              toy_order_laws toy_metric_nonneg toy_metric_self_zero
              toy_choice_contract) as (s' & Hfit & Hsc); try by vm_compute.
  by exists s'.
Defined.


(** ** The further properties at concrete inputs *)

(** Training scores and scores agree after a [fit] on four rows. *)
Lemma training_scores_are_scores_witness :
  ∃ scores,
    decision_scores_ (self (fitted X4 (fresh (SInt 2) "manhattan" None)))
    = Some scores ∧
    (decision_function X4 (fitted X4 (fresh (SInt 2) "manhattan" None))).1
    = inr scores ∧
    length scores = n_samples X4.
Proof.
  apply (training_scores_are_scores X4 None (fresh (SInt 2) "manhattan" None)).
  by vm_compute.
Defined.

(** Scoring the two reference rows themselves gives two zeros. *)
Lemma reference_rows_score_zero_witness :
  ∃ scores,
    (decision_function drawn
       (fitted X4 (fresh (SInt 2) "manhattan" None))).1 = inr scores ∧
    scores !! 0%nat = Some 0 ∧ scores !! 1%nat = Some 0.
Proof.
  destruct (reference_rows_score_zero drawn
              (fitted X4 (fresh (SInt 2) "manhattan" None))
              toy_order_laws toy_metric_nonneg toy_metric_self_zero)
    as (ref & scores & Hs & Hdf & Hz).
  - apply (fit_establishes_Fitted X4 None (fresh (SInt 2) "manhattan" None)
             _ toy_choice_contract). by vm_compute.
  - by vm_compute.
  - intros ref. vm_compute. by intros [= <-].
  - exists scores. split; [exact Hdf|].
    assert (ref = drawn) as ->.
    { assert (subset (self (fitted X4 (fresh (SInt 2) "manhattan" None)))
              = Some drawn) as E by by vm_compute.
      rewrite E in Hs. by injection Hs as <-. }
    split.
    + apply (Hz 0%nat [0]); [done|]. simpl. left.
    + apply (Hz 1%nat [10]); [done|]. simpl. right. left.
Defined.

(** The two rows drawn from four have training score zero. *)
Lemma drawn_rows_train_to_zero_witness :
  ∃ scores,
    decision_scores_ (self (fitted X4 (fresh (SInt 2) "manhattan" None)))
    = Some scores ∧
    scores !! 0%nat = Some 0 ∧ scores !! 1%nat = Some 0.
Proof.
  destruct (drawn_rows_train_to_zero X4 None
              (fresh (SInt 2) "manhattan" None)
              (fitted X4 (fresh (SInt 2) "manhattan" None))
              toy_order_laws toy_metric_nonneg toy_metric_self_zero)
    as (ref & scores & Hs & Hsc & Hz); [by vm_compute|].
  exists scores. split; [exact Hsc|].
  assert (ref = drawn) as ->.
  { assert (subset (self (fitted X4 (fresh (SInt 2) "manhattan" None)))
            = Some drawn) as E by by vm_compute.
    rewrite E in Hs. by injection Hs as <-. }
  split.
  - apply (Hz 0%nat [0]); [done|]. simpl. left.
  - apply (Hz 1%nat [10]); [done|]. simpl. right. left.
Defined.

(** A query with two features against a subset with one. *)
Lemma feature_count_mismatch_witness :
  (decision_function wide (fitted X4 (fresh (SInt 2) "manhattan" None))).1
  = inl ValueError_dimension.
Proof.
  destruct (feature_count_mismatch wide
              (fitted X4 (fresh (SInt 2) "manhattan" None))) as [tr Hdf].
  - apply (fit_establishes_Fitted X4 None (fresh (SInt 2) "manhattan" None)
             _ toy_choice_contract). by vm_compute.
  - by vm_compute.
  - intros ref. vm_compute. by intros [= <-].
  - by rewrite Hdf.
Defined.

(** A metric name that does not resolve, on a detector that an earlier
    [fit] has filled: the subset is replaced, the old scores stay. *)
Lemma fit_fails_at_resolution_witness :
  ∃ s', fit X4 None (refitted (SInt 2) "euclid" None)
        = (inl (LibraryError "get_metric"), s') ∧
        subset (self s') = Some drawn ∧
        decision_scores_ (self s') = Some [0; 1].
Proof.
  destruct (fit_fails_at_resolution X4 None (refitted (SInt 2) "euclid" None)
              2 0%nat 1%nat [0%nat; 1%nat] drawn
              (LibraryError "get_metric"))
    as (s' & Hfit & Hsub & _ & _ & _ & Hsc & _); try by vm_compute.
  by exists s'.
Defined.

(** The generator of [np.random] is not touched by a seeded detector. *)
Lemma fit_leaves_other_generators_witness :
  rngs (fit X4 None (fresh (SInt 2) "manhattan" None)).2 !! np_random
  = Some 7%nat.
Proof.
  etrans.
  - apply (fit_leaves_other_generators X4 None
             (fresh (SInt 2) "manhattan" None) np_random). by vm_compute.
  - by vm_compute.
Defined.

(** A [fit] that fails at metric resolution has still made its draw. *)
Lemma fit_takes_one_draw_witness :
  rngs (fit X4 None (fresh (SInt 2) "euclid" None)).2 !! 1%nat = Some 1%nat.
Proof.
  assert (check_array X4 = inr X4) as HX by by vm_compute.
  assert (resolve_size (subset_size (self (fresh (SInt 2) "euclid" None)))
            (n_samples X4) = inr 2) as Hk by by vm_compute.
  assert (rngs (fresh (SInt 2) "euclid" None)
          !! random_state (self (fresh (SInt 2) "euclid" None))
          = Some 0%nat) as Hg by by vm_compute.
  destruct (fit_takes_one_draw X4 None (fresh (SInt 2) "euclid" None)
              2 0%nat HX Hk Hg) as [Hr _].
  etrans; [exact (f_equal (λ m, m !! 1%nat) Hr)|by vm_compute].
Defined.

(** Two detectors made with [random_state=None]: after the first has
    fitted, the generator that the second holds has moved from 7 to 8. *)
Lemma none_seed_shares_generator_witness :
  rngs (fit X4 None
          (mkState (mkSampling tt 0%nat (SInt 2) "manhattan" None np_random
                      None None None None None) store0 [])).2 !! np_random
  = Some 8%nat.
Proof.
  destruct (none_seed_shares_generator (H := toy)
              tt (SInt 2) "manhattan" None tt (SInt 1) "chebyshev" None
              store0 _ _ _ _ eq_refl eq_refl) as (_ & _ & _ & Hfit).
  exact (Hfit X4 None [] 2 7%nat eq_refl eq_refl eq_refl).
Defined.

(** A first [fit] and a [fit] over stale results end in the same state. *)
Lemma refit_replaces_fitted_state_witness :
  fit X4 None (refitted (SInt 2) "manhattan" None)
  = (inr tt, fitted X4 (fresh (SInt 2) "manhattan" None)).
Proof.
  apply (refit_replaces_fitted_state X4 None
           (fresh (SInt 2) "manhattan" None)).
  - by repeat split.
  - by vm_compute.
Defined.

(** [subset_size = 0.125] on four rows: a count of zero. *)
Lemma zero_count_never_fits_witness :
  subset_size (self (fit X4 None (fresh (SFloat eighth) "manhattan" None)).2)
  = SInt 0 ∧
  (fit X2 None (fit X4 None (fresh (SFloat eighth) "manhattan" None)).2).1
  ≠ inr tt.
Proof.
  assert (check_array X4 = inr X4) as HX by by vm_compute.
  assert (resolve_size
            (subset_size (self (fresh (SFloat eighth) "manhattan" None)))
            (n_samples X4) = inr 0) as Hk by by vm_compute.
  destruct (zero_count_never_fits X4 None
              (fresh (SFloat eighth) "manhattan" None) toy_choice_contract
              HX Hk)
    as (_ & Hsz & Hlater).
  split; [exact Hsz|]. apply Hlater. apply rtc_refl.
Defined.

(** Fitted on four rows, then a [fit] that fails on one row: the detector
    still scores. *)
Lemma fitted_is_stable_witness :
  ∃ scores,
    (decision_function X2
       (fitted single
          (fitted X4 (fresh (SInt 2) "manhattan" None)))).1 = inr scores ∧
    length scores = n_samples X2.
Proof.
  apply (fitted_is_stable X4 None (fresh (SInt 2) "manhattan" None)
           (fitted X4 (fresh (SInt 2) "manhattan" None))
           _ X2 toy_choice_contract).
  - by vm_compute.
  - apply rtc_once. left. exists single, None. eexists.
    apply surjective_pairing.
  - by vm_compute.
  - intros ref. vm_compute. by intros [= <-].
Defined.

(** Two of the four rows as references against all four. *)
Lemma more_references_lower_scores_witness :
  ∃ sc1 sc2,
    (decision_function X2 (fitted X4 (fresh (SInt 2) "manhattan" None))).1
    = inr sc1 ∧
    (decision_function X2 (fitted X4 (fresh (SInt 4) "manhattan" None))).1
    = inr sc2 ∧
    Forall2 (λ a b, (b <=? a) = true) sc1 sc2.
Proof.
  apply (more_references_lower_scores X2
           (fitted X4 (fresh (SInt 2) "manhattan" None))
           (fitted X4 (fresh (SInt 4) "manhattan" None))
           drawn X4 toy_order_laws).
  - apply (fit_establishes_Fitted X4 None (fresh (SInt 2) "manhattan" None)
             _ toy_choice_contract). by vm_compute.
  - apply (fit_establishes_Fitted X4 None (fresh (SInt 4) "manhattan" None)
             _ toy_choice_contract). by vm_compute.
  - by vm_compute.
  - by vm_compute.
  - by vm_compute.
  - intros r Hr. apply elem_of_cons in Hr as [->|Hr]; [left|].
    apply elem_of_cons in Hr as [->|Hr]; [right; left|].
    by apply elem_of_nil in Hr.
  - by vm_compute.
  - by vm_compute.
  - by vm_compute.
Defined.

(** The same two rows drawn in either order. *)
Lemma scores_ignore_draw_order_witness :
  (decision_function X4 (fitted X2 (fresh (SInt 2) "manhattan" None))).1
  = (decision_function X4 (fitted X2 (fresh1 (SInt 2) "manhattan" None))).1.
Proof.
  apply (scores_ignore_draw_order X4
           (fitted X2 (fresh (SInt 2) "manhattan" None))
           (fitted X2 (fresh1 (SInt 2) "manhattan" None))
           X2 flipped toy_order_laws).
  - apply (fit_establishes_Fitted X2 None (fresh (SInt 2) "manhattan" None)
             _ toy_choice_contract). by vm_compute.
  - apply (fit_establishes_Fitted X2 None (fresh1 (SInt 2) "manhattan" None)
             _ toy_choice_contract). by vm_compute.
  - by vm_compute.
  - by vm_compute.
  - by vm_compute.
  - intros r. split; intros Hr.
    + apply elem_of_cons in Hr as [->|Hr]; [right; left|].
      apply elem_of_cons in Hr as [->|Hr]; [left|].
      by apply elem_of_nil in Hr.
    + apply elem_of_cons in Hr as [->|Hr]; [right; left|].
      apply elem_of_cons in Hr as [->|Hr]; [left|].
      by apply elem_of_nil in Hr.
  - by vm_compute.
  - by vm_compute.
  - by vm_compute.
Defined.
